(** * Authentication layer of alx-backend-user-data: model and properties

    The development embeds the request-authentication code of the
    repository (path exclusion, Basic credentials, expiring and durable
    sessions) as executable Rocq functions and proves the properties the
    specification states about them.

    Python values are modelled as follows.
    - [str] is a list of Unicode code points ([N]); [bytes] is a list of
      octets ([N] below 256).
    - An argument that the code tests with [type(x) == str] or
      [x is not None] is an [option].
    - A call that can raise returns a [result]: [Ret v] or [Raise e].
    - Library routines the code calls ([str.strip], [re.match],
      [re.fullmatch], [base64.b64decode], [bytes.decode], [datetime]
      arithmetic) are modelled by executable functions that follow
      CPython 3.11. *)

From Stdlib Require Import NArith ZArith List String Ascii Bool Lia.
From stdpp Require Import gmap.
Import ListNotations.

(** ** The Python runtime the code relies on *)

Module Py.

Abbreviation str := (list N) (only parsing).
Abbreviation bytes := (list N) (only parsing).

(** A source literal made of ASCII characters, as a [str]. *)
Definition py (s : string) : str :=
  List.map N_of_ascii (list_ascii_of_string s).

(** Exception classes raised on the modelled paths. *)
Inductive exn : Type :=
| IndexError
| ValueError
| BinasciiError
| UnicodeDecodeError
| OverflowError
| UnicodeEncodeError
| ReError
| StorageError.

(** [issubclass]: [binascii.Error], [UnicodeDecodeError] and
    [UnicodeEncodeError] derive from [ValueError]; every class derives
    from itself. *)
Definition exn_eqb (a b : exn) : bool :=
  match a, b with
  | IndexError, IndexError | ValueError, ValueError
  | BinasciiError, BinasciiError | UnicodeDecodeError, UnicodeDecodeError
  | UnicodeEncodeError, UnicodeEncodeError
  | OverflowError, OverflowError | ReError, ReError
  | StorageError, StorageError => true
  | _, _ => false
  end.

Definition issubclass (e cls : exn) : bool :=
  exn_eqb e cls ||
  match e, cls with
  | BinasciiError, ValueError | UnicodeDecodeError, ValueError
  | UnicodeEncodeError, ValueError => true
  | _, _ => false
  end.

Inductive result (A : Type) : Type :=
| Ret (a : A)
| Raise (e : exn).
Arguments Ret {A} a.
Arguments Raise {A} e.

Definition bind {A B : Type} (r : result A) (k : A -> result B) : result B :=
  match r with
  | Ret a => k a
  | Raise e => Raise e
  end.

(** [try: body except (c1, c2, ...): handler] *)
Definition try_except {A : Type} (body : result A) (classes : list exn)
    (handler : result A) : result A :=
  match body with
  | Ret a => Ret a
  | Raise e => if existsb (issubclass e) classes then handler else Raise e
  end.

(** *** [str.strip()] *)

(** [str.isspace] on one code point (the Unicode White_Space set, plus
    the four ASCII separators 0x1c-0x1f that CPython adds). *)
Definition is_space (c : N) : bool :=
  ((9 <=? c) && (c <=? 13) || (28 <=? c) && (c <=? 32)
   || (c =? 0x85) || (c =? 0xa0) || (c =? 0x1680)
   || (0x2000 <=? c) && (c <=? 0x200a)
   || (c =? 0x2028) || (c =? 0x2029) || (c =? 0x202f)
   || (c =? 0x205f) || (c =? 0x3000))%N.

Fixpoint lstrip (s : str) : str :=
  match s with
  | [] => []
  | c :: s' => if is_space c then lstrip s' else s
  end.

Fixpoint rstrip (s : str) : str :=
  match s with
  | [] => []
  | c :: s' =>
      match rstrip s' with
      | [] => if is_space c then [] else [c]
      | r => c :: r
      end
  end.

Definition strip (s : str) : str := rstrip (lstrip s).

(** [s[-1]]: the last character, [IndexError] on the empty string. *)
Fixpoint last_char (s : str) : result N :=
  match s with
  | [] => Raise IndexError
  | [c] => Ret c
  | _ :: s' => last_char s'
  end.

(** [s[a:b]] for [0 <= a <= b]. *)
Definition slice (s : str) (a b : nat) : str := firstn (b - a) (skipn a s).

(** *** Regular expressions

    A compiled expression is a flat program, as in CPython's engine:
    single-character atoms with a quantifier, and marks that record the
    current position (a capturing group is a pair of marks). *)

Inductive cset : Type :=
| CChar (c : N)        (* a literal character *)
| CDot                 (* [.]: anything but a line feed *)
| CNotChar (c : N).    (* [[^c]] *)

Inductive quant : Type := QOne | QStar | QPlus.

Inductive op : Type :=
| Atom (a : cset) (q : quant)
| Mark.

Abbreviation regex := (list op) (only parsing).

Definition cset_mem (a : cset) (c : N) : bool :=
  match a with
  | CChar x => (c =? x)%N
  | CDot => negb (c =? 10)%N
  | CNotChar x => negb (c =? x)%N
  end.

(** Greedy repetition with backtracking: take as many characters of the
    class as possible, and give them back one at a time while the rest of
    the program fails. *)
Fixpoint greedy {X : Type} (a : cset) (k : str -> nat -> option X)
    (s : str) (pos : nat) : option X :=
  match s with
  | c :: s' =>
      if cset_mem a c then
        match greedy a k s' (S pos) with
        | Some m => Some m
        | None => k s pos
        end
      else k s pos
  | [] => k s pos
  end.

(** [run full r s pos marks]: match program [r] against [s], the rest of
    the subject from position [pos]. With [full] the whole subject must be
    consumed ([re.fullmatch]); without, a prefix is enough ([re.match]).
    The result is the list of recorded mark positions. *)
Fixpoint run (full : bool) (r : regex) (s : str) (pos : nat)
    (marks : list nat) : option (list nat) :=
  match r with
  | [] =>
      if full then match s with [] => Some marks | _ :: _ => None end
      else Some marks
  | Mark :: r' => run full r' s pos (marks ++ [pos])
  | Atom a QOne :: r' =>
      match s with
      | c :: s' => if cset_mem a c then run full r' s' (S pos) marks else None
      | [] => None
      end
  | Atom a QStar :: r' =>
      greedy a (fun s' pos' => run full r' s' pos' marks) s pos
  | Atom a QPlus :: r' =>
      match s with
      | c :: s' =>
          if cset_mem a c
          then greedy a (fun s' pos' => run full r' s' pos' marks) s' (S pos)
          else None
      | [] => None
      end
  end.

Definition re_fullmatch (r : regex) (s : str) : option (list nat) :=
  run true r s 0 [].

Definition re_match_compiled (r : regex) (s : str) : option (list nat) :=
  run false r s 0 [].

(** [m.group(i)] for the [i]-th capturing group (counted from 0 here). *)
Definition group (subject : str) (marks : list nat) (i : nat) : str :=
  slice subject (nth (2 * i) marks 0) (nth (2 * i + 1) marks 0).

(** Compilation of a pattern given as a string. The modelled fragment is:
    ordinary characters, [.], and a [*] after an atom. A [*] with nothing
    to repeat, or after another [*], is an [re.error]. A pattern that uses
    any other special character of the [re] syntax is outside the model
    ([None]). *)
Definition is_unmodelled_special (c : N) : bool :=
  existsb (N.eqb c)
    (py "\^$+?{}[]|()").

Definition atom_of_char (c : N) : cset :=
  if (c =? 46)%N then CDot else CChar c.

Fixpoint compile_atoms (p : str) : result regex :=
  match p with
  | [] => Ret []
  | c :: p' =>
      if (c =? 42)%N then Raise ReError
      else
        match p' with
        | c' :: p'' =>
            if (c' =? 42)%N
            then bind (compile_atoms p'')
                      (fun r => Ret (Atom (atom_of_char c) QStar :: r))
            else bind (compile_atoms p')
                      (fun r => Ret (Atom (atom_of_char c) QOne :: r))
        | [] => Ret [Atom (atom_of_char c) QOne]
        end
  end.

Definition re_compile (p : str) : option (result regex) :=
  if existsb is_unmodelled_special p then None
  else Some (compile_atoms p).

(** [bool(re.match(pattern, s))] *)
Definition re_match (p : str) (s : str) : option (result bool) :=
  match re_compile p with
  | None => None
  | Some (Raise e) => Some (Raise e)
  | Some (Ret r) =>
      Some (Ret (match re_match_compiled r s with
                 | Some _ => true
                 | None => false
                 end))
  end.

(** *** UTF-8 *)

Section Utf8.
Local Open Scope N_scope.

(** [chr(c).encode('utf-8')]: surrogates are not encodable, and a [str]
    holds no code point above 0x10ffff. *)
Definition utf8_encode_cp (c : N) : result bytes :=
  if c <? 0x80 then Ret [c]
  else if c <? 0x800 then Ret [0xc0 + c / 64; 0x80 + c mod 64]
  else if c <? 0x10000 then
    if (0xd800 <=? c) && (c <=? 0xdfff) then Raise UnicodeEncodeError
    else Ret [0xe0 + c / 4096; 0x80 + (c / 64) mod 64; 0x80 + c mod 64]
  else if c <? 0x110000 then
    Ret [0xf0 + c / 262144; 0x80 + (c / 4096) mod 64;
         0x80 + (c / 64) mod 64; 0x80 + c mod 64]
  else Raise UnicodeEncodeError.

Fixpoint utf8_encode (s : str) : result bytes :=
  match s with
  | [] => Ret []
  | c :: s' =>
      bind (utf8_encode_cp c) (fun bs =>
      bind (utf8_encode s') (fun bs' => Ret (bs ++ bs')))
  end.

Definition is_cont (b : N) : bool := (0x80 <=? b) && (b <? 0xc0).

Definition cons_ret (c : N) (r : result str) : result str :=
  bind r (fun s => Ret (c :: s)).

(** [bs.decode('utf-8')], strict: truncated sequences, stray continuation
    bytes, overlong forms, surrogates and values above 0x10ffff raise
    [UnicodeDecodeError]. *)
Fixpoint utf8_decode (bs : bytes) : result str :=
  match bs with
  | [] => Ret []
  | b0 :: rest =>
      if b0 <? 0x80 then cons_ret b0 (utf8_decode rest)
      else if b0 <? 0xc2 then Raise UnicodeDecodeError
      else if b0 <? 0xe0 then
        match rest with
        | b1 :: rest1 =>
            if is_cont b1
            then cons_ret ((b0 - 0xc0) * 64 + (b1 - 0x80)) (utf8_decode rest1)
            else Raise UnicodeDecodeError
        | _ => Raise UnicodeDecodeError
        end
      else if b0 <? 0xf0 then
        match rest with
        | b1 :: b2 :: rest2 =>
            let c := (b0 - 0xe0) * 4096 + (b1 - 0x80) * 64 + (b2 - 0x80) in
            if is_cont b1 && is_cont b2 && (0x800 <=? c)
               && negb ((0xd800 <=? c) && (c <=? 0xdfff))
            then cons_ret c (utf8_decode rest2)
            else Raise UnicodeDecodeError
        | _ => Raise UnicodeDecodeError
        end
      else if b0 <? 0xf5 then
        match rest with
        | b1 :: b2 :: b3 :: rest3 =>
            let c := (b0 - 0xf0) * 262144 + (b1 - 0x80) * 4096
                     + (b2 - 0x80) * 64 + (b3 - 0x80) in
            if is_cont b1 && is_cont b2 && is_cont b3
               && (0x10000 <=? c) && (c <? 0x110000)
            then cons_ret c (utf8_decode rest3)
            else Raise UnicodeDecodeError
        | _ => Raise UnicodeDecodeError
        end
      else Raise UnicodeDecodeError
  end.

End Utf8.

(** *** Base64 *)

Section Base64.
Local Open Scope N_scope.

(** The alphabet [A-Za-z0-9+/]. *)
Definition b64char (n : N) : N :=
  if n <? 26 then 65 + n
  else if n <? 52 then 71 + n
  else if n <? 62 then n - 4
  else if n =? 62 then 43
  else 47.

(** [binascii]'s [table_a2b_base64]. *)
Definition table_a2b_base64 (c : N) : option N :=
  if (65 <=? c) && (c <=? 90) then Some (c - 65)
  else if (97 <=? c) && (c <=? 122) then Some (c - 71)
  else if (48 <=? c) && (c <=? 57) then Some (c + 4)
  else if c =? 43 then Some 62
  else if c =? 47 then Some 63
  else None.

(** [base64.b64encode(bs).decode('ascii')] *)
Fixpoint b64encode (bs : bytes) : str :=
  match bs with
  | [] => []
  | [a] => [b64char (a / 4); b64char ((a mod 4) * 16); 61; 61]
  | [a; b] =>
      [b64char (a / 4); b64char ((a mod 4) * 16 + b / 16);
       b64char ((b mod 16) * 4); 61]
  | a :: b :: c :: rest =>
      b64char (a / 4) :: b64char ((a mod 4) * 16 + b / 16)
      :: b64char ((b mod 16) * 4 + c / 64) :: b64char (c mod 64)
      :: b64encode rest
  end.

(** The loop of [binascii.a2b_base64(data, strict_mode=True)]: four
    sextets make three octets; [=] is counted as padding once two sextets
    of the quad are in; anything after a complete pad sequence, a
    character outside the alphabet, or a data character after padding has
    started is a [binascii.Error], as is an incomplete quad at the end. *)
Fixpoint a2b_loop (s : str) (quad_pos : nat) (leftchar : N) (pads : nat)
    (padding_started : bool) (out : bytes) : result bytes :=
  match s with
  | [] => match quad_pos with O => Ret out | _ => Raise BinasciiError end
  | ch :: s' =>
      if ch =? 61 then
        if (2 <=? quad_pos)%nat && (4 <=? quad_pos + S pads)%nat then
          match s' with
          | [] => Ret out
          | _ :: _ => Raise BinasciiError
          end
        else
          a2b_loop s' quad_pos leftchar
                   (if (2 <=? quad_pos)%nat then S pads else pads) true out
      else
        match table_a2b_base64 ch with
        | None => Raise BinasciiError
        | Some v =>
            if padding_started then Raise BinasciiError
            else
              match quad_pos with
              | 0%nat => a2b_loop s' 1 v 0 false out
              | 1%nat =>
                  a2b_loop s' 2 (v mod 16) 0 false
                           (out ++ [leftchar * 4 + v / 16])
              | 2%nat =>
                  a2b_loop s' 3 (v mod 4) 0 false
                           (out ++ [leftchar * 16 + v / 4])
              | _ => a2b_loop s' 0 0 0 false (out ++ [leftchar * 64 + v])
              end
        end
  end.

(** [base64.b64decode(s, validate=True)] for a [str] argument: the string
    is first encoded to ASCII (a plain [ValueError] when it holds a
    character above 127), then decoded strictly. *)
Definition b64decode_validate (s : str) : result bytes :=
  if existsb (fun c => 128 <=? c) s then Raise ValueError
  else
    match s with
    | 61 :: _ => Raise BinasciiError
    | _ => a2b_loop s 0 0 0 false []
    end.

End Base64.

(** *** [datetime]

    A naive [datetime] is the number of microseconds since
    [datetime.min] (0001-01-01T00:00:00); [datetime.max] is the last
    microsecond of year 9999. A [timedelta] is a number of microseconds. *)

Section Datetime.
Local Open Scope Z_scope.

Definition datetime_max : Z := 3652059 * 86400 * 1000000 - 1.

(** [timedelta(seconds=n)] for an [int]: the number of days must have
    magnitude at most 999999999. *)
Definition timedelta_seconds (n : Z) : result Z :=
  let days := n / 86400 in
  if (-999999999 <=? days) && (days <=? 999999999)
  then Ret (n * 1000000)
  else Raise OverflowError.

(** [t + d]: the sum must be a representable date. *)
Definition datetime_add (t d : Z) : result Z :=
  let r := t + d in
  if (0 <=? r) && (r <=? datetime_max) then Ret r else Raise OverflowError.

End Datetime.

(** *** [int(s)] for a [str]

    Base 10: optional white space around, an optional sign, then decimal
    digits in which single underscores may separate digits; anything else
    is a [ValueError]. The model covers ASCII strings of at most 4300
    characters ([None] otherwise: Unicode digits and the limit on the
    number of digits are not modelled). *)

Section Int.
Local Open Scope N_scope.

(** C's [isspace]: what [int] skips around an ASCII literal. *)
Definition is_ascii_space (c : N) : bool :=
  (9 <=? c) && (c <=? 13) || (c =? 32).

Definition is_digit (c : N) : bool := (48 <=? c) && (c <=? 57).

Fixpoint lstrip_ascii (s : str) : str :=
  match s with
  | [] => []
  | c :: s' => if is_ascii_space c then lstrip_ascii s' else s
  end.

Fixpoint rstrip_ascii (s : str) : str :=
  match s with
  | [] => []
  | c :: s' =>
      match rstrip_ascii s' with
      | [] => if is_ascii_space c then [] else [c]
      | r => c :: r
      end
  end.

(** The value of a run of digits; [after_digit] tells whether the
    previous character was a digit (an underscore is allowed only then,
    and the run must end on a digit). *)
Fixpoint digits_value (s : str) (acc : Z) (after_digit : bool) : option Z :=
  match s with
  | [] => if after_digit then Some acc else None
  | c :: s' =>
      if is_digit c
      then digits_value s' (acc * 10 + Z.of_N (c - 48))%Z true
      else if (c =? 95) && after_digit then digits_value s' acc false
      else None
  end.

Definition int_of_str (s : str) : option (result Z) :=
  if (4300 <? length s)%nat || existsb (fun c => 128 <=? c) s then None
  else
    let t := rstrip_ascii (lstrip_ascii s) in
    let '(sign, body) :=
      match t with
      | 43 :: r => (1%Z, r)
      | 45 :: r => ((-1)%Z, r)
      | _ => (1%Z, t)
      end in
    match digits_value body 0 false with
    | Some v => Some (Ret (sign * v)%Z)
    | None => Some (Raise ValueError)
    end.

End Int.

End Py.

(** ** [api/v1/auth/auth.py]: the base class [Auth]

    The two copies of the file (Basic and Session projects) have the same
    [require_auth] and [authorization_header]. *)

Module Auth.
Import Py.

(** What the code reads of a [flask.Request]: header and cookie lookup. *)
Record Request : Type := {
  headers : str -> option str;
  cookies : str -> option str
}.

(** The pattern built from one (stripped) exclusion entry. Indexing the
    entry at [-1] raises [IndexError] when it is empty. *)
Definition exclusion_pattern (exclusion_path : str) : result str :=
  bind (last_char exclusion_path) (fun c =>
    if (c =? 42)%N then Ret (removelast exclusion_path ++ py ".*")
    else if (c =? 47)%N then Ret (removelast exclusion_path ++ py "/*")
    else Ret (exclusion_path ++ py "/*")).

(** One iteration of the loop: does entry [x] match [path]? [None] when
    the pattern is outside the modelled [re] fragment. *)
Definition entry_matches (x : str) (path : str) : option (result bool) :=
  match exclusion_pattern (strip x) with
  | Raise e => Some (Raise e)
  | Ret pattern => re_match pattern path
  end.

(** The [for] loop: [False] at the first entry that matches, [True] when
    the entries are exhausted. *)
Fixpoint require_auth_loop (path : str) (excluded_paths : list str)
    : option (result bool) :=
  match excluded_paths with
  | [] => Some (Ret true)
  | x :: rest =>
      match entry_matches x path with
      | Some (Ret true) => Some (Ret false)
      | Some (Ret false) => require_auth_loop path rest
      | Some (Raise e) => Some (Raise e)
      | None => None
      end
  end.

(** [require_auth(path, excluded_paths)]. The result is [Some (Ret b)]
    when the method returns [b], [Some (Raise e)] when it raises, and
    [None] when an entry that is reached builds a pattern outside the
    modelled [re] fragment. *)
Definition require_auth (path : option str)
    (excluded_paths : option (list str)) : option (result bool) :=
  match path, excluded_paths with
  | Some p, Some l => require_auth_loop p l
  | _, _ => Some (Ret true)
  end.

Definition authorization_header (request : option Request) : option str :=
  match request with
  | Some r => headers r (py "Authorization")
  | None => None
  end.

(** [Auth.current_user]: the base class identifies nobody. *)
Definition current_user {User : Type} (request : option Request)
    : result (option User) :=
  Ret None.

(** [Auth.session_cookie] (Session project). [SESSION_NAME] is the value
    of the environment variable of that name; looking up the cookie named
    [None] finds nothing. *)
Definition session_cookie (SESSION_NAME : option str)
    (request : option Request) : option str :=
  match request with
  | Some r =>
      match SESSION_NAME with
      | Some cookie_name => cookies r cookie_name
      | None => None
      end
  | None => None
  end.

End Auth.

(** ** [api/v1/auth/basic_auth.py]: the class [BasicAuth] *)

Module BasicAuth.
Import Py.

(** [r'Basic (?P<token>.+)'] *)
Definition basic_pattern : regex :=
  List.map (fun c => Atom (CChar c) QOne) (py "Basic ")
  ++ [Mark; Atom CDot QPlus; Mark].

(** [r'(?P<user>[^:]+):(?P<password>.+)'] *)
Definition credentials_pattern : regex :=
  [Mark; Atom (CNotChar 58) QPlus; Mark;
   Atom (CChar 58) QOne;
   Mark; Atom CDot QPlus; Mark].

Definition extract_base64_authorization_header
    (authorization_header : option str) : option str :=
  match authorization_header with
  | Some h =>
      let subject := strip h in
      match re_fullmatch basic_pattern subject with
      | Some field_match => Some (group subject field_match 0)
      | None => None
      end
  | None => None
  end.

Definition decode_base64_authorization_header
    (base64_authorization_header : option str) : result (option str) :=
  match base64_authorization_header with
  | Some token =>
      try_except
        (bind (b64decode_validate token) (fun res =>
         bind (utf8_decode res) (fun text => Ret (Some text))))
        [BinasciiError; UnicodeDecodeError]
        (Ret None)
  | None => Ret None
  end.

Definition extract_user_credentials
    (decoded_base64_authorization_header : option str)
    : option str * option str :=
  match decoded_base64_authorization_header with
  | Some d =>
      let subject := strip d in
      match re_fullmatch credentials_pattern subject with
      | Some field_match =>
          (Some (group subject field_match 0),
           Some (group subject field_match 1))
      | None => (None, None)
      end
  | None => (None, None)
  end.

Section Users.

(** The user model ([models/user.py]) is a collaborator: [User_search]
    is [User.search({'email': e})], which may raise, and
    [is_valid_password] is the method of that name. Every modelled
    exception class is an [Exception], so [except Exception] catches
    whatever the search raises. *)
Variable User : Type.
Variable User_search : str -> result (list User).
Variable is_valid_password : User -> str -> bool.

Definition user_object_from_credentials (user_email user_pwd : option str)
    : result (option User) :=
  match user_email, user_pwd with
  | Some email, Some pwd =>
      match User_search email with
      | Raise _ => Ret None
      | Ret users =>
          match users with
          | [] => Ret None
          | u0 :: _ =>
              if is_valid_password u0 pwd then Ret (Some u0) else Ret None
          end
      end
  | _, _ => Ret None
  end.

Definition current_user (request : option Auth.Request)
    : result (option User) :=
  let auth_header := Auth.authorization_header request in
  let b64_auth_token := extract_base64_authorization_header auth_header in
  bind (decode_base64_authorization_header b64_auth_token) (fun auth_token =>
  let '(email, password) := extract_user_credentials auth_token in
  user_object_from_credentials email password).

End Users.

(** The reading of the specification's [splitCredential]: cut the text at
    its first [:], with no other condition. Used only for comparison with
    [extract_user_credentials]. *)
Fixpoint split_first_colon (s : str) : option (str * str) :=
  match s with
  | [] => None
  | c :: s' =>
      if (c =? 58)%N then Some ([], s')
      else
        match split_first_colon s' with
        | Some (u, p) => Some (c :: u, p)
        | None => None
        end
  end.

Definition splitCredential_spec (s : str) : option str * option str :=
  match split_first_colon s with
  | Some (u, p) => (Some u, Some p)
  | None => (None, None)
  end.

End BasicAuth.

(** ** [api/v1/auth/session_exp_auth.py]: the class [SessionExpAuth] *)

Module SessionExpAuth.
Import Py.

(** The value stored under a session id by [create_session]. The lookup
    tests for the key ['created_at'], so that field is optional. *)
Record session_dict : Type := {
  user_id : str;
  created_at : option Z
}.

Record t : Type := {
  session_duration : Z;
  user_id_by_session_id : gmap (list N) session_dict
}.

(** Modelled from the spec: [SessionAuth.create_session], the parent
    method, whose class is not among the sources. It yields a fresh id
    for a string user id and nothing otherwise; [fresh] stands for the id
    it generates. *)
Definition SessionAuth_create_session (fresh : str) (user_id : option str)
    : option str :=
  match user_id with
  | Some _ => Some fresh
  | None => None
  end.

Definition create_session (self : t) (now : Z) (fresh : str)
    (uid : option str) : t * option str :=
  match SessionAuth_create_session fresh uid, uid with
  | Some session_id, Some u =>
      ({| session_duration := session_duration self;
          user_id_by_session_id :=
            <[session_id := {| user_id := u; created_at := Some now |}]>
              (user_id_by_session_id self) |},
       Some session_id)
  | _, _ => (self, None)
  end.

Definition user_id_for_session_id (self : t) (now : Z)
    (session_id : option str) : result (option str) :=
  match session_id with
  | None => Ret None
  | Some sid =>
      match user_id_by_session_id self !! sid with
      | None => Ret None
      | Some sd =>
          if (session_duration self <=? 0)%Z then Ret (Some (user_id sd))
          else
            match created_at sd with
            | None => Ret None
            | Some created =>
                bind (timedelta_seconds (session_duration self))
                  (fun time_span =>
                bind (datetime_add created time_span) (fun exp_time =>
                if (exp_time <? now)%Z then Ret None
                else Ret (Some (user_id sd))))
            end
      end
  end.

(** [SessionExpAuth.__init__]: the duration read from the environment
    variable [SESSION_DURATION] (default ['0']), and 0 when [int] raises.
    [None] when the text is outside the modelled inputs of [int]. *)
Definition init_session_duration (SESSION_DURATION : option str) : option Z :=
  match int_of_str (match SESSION_DURATION with
                    | Some v => v
                    | None => py "0"
                    end) with
  | None => None
  | Some (Ret n) => Some n
  | Some (Raise _) => Some 0%Z
  end.

End SessionExpAuth.

(** ** [api/v1/auth/session_db_auth.py]: the class [SessionDBAuth] *)

Module SessionDBAuth.
Import Py.

(** Modelled from the spec: the durable record of [models/user_session.py]
    (not among the sources), of which the code reads [user_id] and
    [created_at]. *)
Record UserSession : Type := {
  user_id : str;
  session_id : str;
  created_at : Z
}.

Section Storage.

(** [UserSession.search({'session_id': sid})], which may raise. *)
Variable UserSession_search : option str -> result (list UserSession).

Definition user_id_for_session_id (session_duration : Z) (now : Z)
    (sid : option str) : result (option str) :=
  match UserSession_search sid with
  | Raise _ => Ret None
  | Ret sessions =>
      match sessions with
      | [] => Ret None
      | s0 :: _ =>
          bind (timedelta_seconds session_duration) (fun time_span =>
          bind (datetime_add (created_at s0) time_span) (fun exp_time =>
          if (exp_time <? now)%Z then Ret None
          else Ret (Some (user_id s0))))
      end
  end.

End Storage.

End SessionDBAuth.

(** ** [api/v1/app.py] (Session project): choice of the authentication
    object and the [before_request] hook *)

Module App.
Import Py.

(** The classes the module can instantiate. *)
Inductive auth_instance : Type :=
| AuthInstance
| BasicAuthInstance
| SessionAuthInstance
| SessionExpAuthInstance
| SessionDBAuthInstance.

(** The chain of [if auth_type == ...] statements; [AUTH_TYPE] is the
    value of the environment variable, ['auth'] when it is not set. *)
Definition select_auth (AUTH_TYPE : option str) : option auth_instance :=
  let auth_type := match AUTH_TYPE with Some v => v | None => py "auth" end in
  let auth := None in
  let auth :=
    if bool_decide (auth_type = py "auth") then Some AuthInstance else auth in
  let auth :=
    if bool_decide (auth_type = py "basic_auth")
    then Some BasicAuthInstance else auth in
  let auth :=
    if bool_decide (auth_type = py "session_auth")
    then Some SessionAuthInstance else auth in
  let auth :=
    if bool_decide (auth_type = py "session_exp_auth")
    then Some SessionExpAuthInstance else auth in
  let auth :=
    if bool_decide (auth_type = py "session_db_auth")
    then Some SessionDBAuthInstance else auth in
  auth.

Definition excluded_paths : list str :=
  [py "/api/v1/status/"; py "/api/v1/unauthorized/";
   py "/api/v1/forbidden/"; py "/api/v1/auth_session/login/"].

(** What the hook does to the request: it returns, with
    [request.current_user] set or not, or it aborts with a status. *)
Inductive before_request (User : Type) : Type :=
| Proceed (current_user : option User)
| Abort (status : nat).
Arguments Proceed {User} current_user.
Arguments Abort {User} status.

(** [authenticate_user]. The authentication object is given by its
    [current_user] method, the one method the classes override
    ([require_auth], [authorization_header] and [session_cookie] are those
    of [Auth]); [auth] is [None] when no class was selected. [path] is
    [request.path]. *)
Definition authenticate_user {User : Type}
    (auth : option (option Auth.Request -> result (option User)))
    (SESSION_NAME : option str) (path : str) (request : Auth.Request)
    : option (result (before_request User)) :=
  match auth with
  | None => Some (Ret (Proceed None))
  | Some current_user =>
      match Auth.require_auth (Some path) (Some excluded_paths) with
      | None => None
      | Some (Raise e) => Some (Raise e)
      | Some (Ret false) => Some (Ret (Proceed None))
      | Some (Ret true) =>
          Some (bind (current_user (Some request)) (fun user =>
            match Auth.authorization_header (Some request),
                  Auth.session_cookie SESSION_NAME (Some request) with
            | None, None => Ret (Abort 401)
            | _, _ =>
                match user with
                | None => Ret (Abort 403)
                | Some u => Ret (Proceed (Some u))
                end
            end))
      end
  end.

End App.

(** ** [filtered_logger.py]: redaction of log messages *)

Module FilteredLogger.
Import Py.

Definition PII_FIELDS : list str :=
  [py "name"; py "email"; py "phone"; py "ssn"; py "password"].

(** Characters with a meaning in the [re] syntax, and characters with a
    meaning inside a character set. *)
Definition is_re_special (c : N) : bool :=
  existsb (N.eqb c) (py ".^$*+?{}[]\|()").

Definition is_set_special (c : N) : bool :=
  existsb (N.eqb c) (py "[]\^-").

(** The alternatives of ['|'.join(fields)]: joining nothing gives the
    empty pattern, which is one empty alternative. *)
Definition alternatives (fields : list str) : list str :=
  match fields with
  | [] => [[]]
  | _ => fields
  end.

(** [s] without the prefix [pre], or [None]. *)
Fixpoint drop_prefix (pre s : str) : option str :=
  match pre with
  | [] => Some s
  | c :: pre' =>
      match s with
      | d :: s' => if (d =? c)%N then drop_prefix pre' s' else None
      | [] => None
      end
  end.

(** The group [(?P<field>f1|f2|...)] followed by [=], tried at the start
    of [s]: the first alternative, in order, after which [=] follows. The
    result is that alternative and what follows the [=]. *)
Fixpoint match_field (alts : list str) (s : str) : option (str * str) :=
  match alts with
  | [] => None
  | f :: alts' =>
      match drop_prefix (f ++ [61%N]) s with
      | Some rest => Some (f, rest)
      | None => match_field alts' s
      end
  end.

(** [[^separator]*]: the number of leading characters of [s] that are
    not in [separator]. *)
Fixpoint value_length (separator : str) (s : str) : nat :=
  match s with
  | [] => 0
  | c :: s' =>
      if existsb (N.eqb c) separator then 0
      else S (value_length separator s')
  end.

(** [re.sub]: scan from the left; where the pattern matches, emit the
    replacement (the field, [=], the redaction) and resume after the
    match; elsewhere copy the character. [skip] counts the characters of
    the current match that are still to be passed over. *)
Fixpoint sub_loop (alts : list str) (separator redaction : str)
    (s : str) (skip : nat) : str :=
  match s with
  | [] => []
  | c :: s' =>
      match skip with
      | S k => sub_loop alts separator redaction s' k
      | O =>
          match match_field alts s with
          | Some (f, rest) =>
              f ++ [61%N] ++ redaction
              ++ sub_loop alts separator redaction s'
                   (length f + value_length separator rest)
          | None => c :: sub_loop alts separator redaction s' 0
          end
      end
  end.

(** [filter_datum(fields, redaction, message, separator)]. The model
    covers fields made of ordinary characters, separators without a
    character special in a set, and redactions without a backslash
    ([None] otherwise). An empty separator makes the character set
    unterminated, an [re.error]. *)
Definition filter_datum (fields : list str) (redaction message separator : str)
    : option (result str) :=
  if existsb (existsb is_re_special) fields
     || existsb is_set_special separator
     || existsb (N.eqb 92) redaction
  then None
  else
    match separator with
    | [] => Some (Raise ReError)
    | _ :: _ =>
        Some (Ret (sub_loop (alternatives fields) separator redaction
                     message 0))
    end.

(** [RedactingFormatter.format]: [formatted] is the text produced by
    [logging.Formatter.format] for the record. *)
Definition format (fields : list str) (formatted : str)
    : option (result str) :=
  filter_datum fields (py "***") formatted (py ";").

(** The message [main] builds for one row:
    ['{};'.format('; '.join('{}={}'.format(c, v) for c, v in zip(columns, row)))],
    where each value is given by its text. *)
Definition columns : list str :=
  [py "name"; py "email"; py "phone"; py "ssn"; py "password";
   py "ip"; py "last_login"; py "user_agent"].

Fixpoint join (sep : str) (l : list str) : str :=
  match l with
  | [] => []
  | [x] => x
  | x :: l' => x ++ sep ++ join sep l'
  end.

Definition row_message (row : list str) : str :=
  join (py "; ")
       (List.map (fun cv => fst cv ++ [61%N] ++ snd cv) (combine columns row))
  ++ py ";".

End FilteredLogger.

(** ** Vocabulary of the statements *)

Import Py.

(** Character tests: anything but a line feed, anything but a colon. *)
Definition not_newline (c : N) : bool := negb (c =? 10)%N.
Definition not_colon (c : N) : bool := negb (c =? 58)%N.

Definition nonempty (s : str) : bool :=
  match s with [] => false | _ :: _ => true end.

(** [s] with the literal prefix [pre] removed, when it has that prefix. *)
Fixpoint strip_prefix (pre s : str) : option str :=
  match pre with
  | [] => Some s
  | c :: pre' =>
      match s with
      | d :: s' => if (d =? c)%N then strip_prefix pre' s' else None
      | [] => None
      end
  end.

(** The outcome of [extract_user_credentials] on an already stripped
    text, in terms of the cut at the first colon. *)
Definition credentials_of (x : str) : option str * option str :=
  match BasicAuth.split_first_colon x with
  | Some (u, p) =>
      if nonempty u && nonempty p && forallb not_newline p
      then (Some u, Some p) else (None, None)
  | None => (None, None)
  end.

(** The part of [credentials_pattern] after the user group. *)
Definition after_user : regex :=
  [Mark; Atom (CChar 58) QOne; Mark; Atom CDot QPlus; Mark].

(** An entry that is processed without raising, whatever the path: it is
    not empty after stripping and its pattern compiles. *)
Definition entry_ok (x : str) : bool :=
  match Auth.exclusion_pattern (strip x) with
  | Raise _ => false
  | Ret pattern =>
      match re_compile pattern with
      | Some (Ret _) => true
      | _ => false
      end
  end.

(** An entry that is processed and does not match [path]. *)
Definition entry_misses (path : str) (x : str) : bool :=
  match Auth.entry_matches x path with
  | Some (Ret false) => true
  | _ => false
  end.

(** An ordinary pattern character: not special in the [re] syntax, except
    that [.] is allowed. *)
Definition is_plain (c : N) : bool :=
  negb (is_unmodelled_special c) && negb (c =? 42)%N.

(** [s] is not empty and its last character is [c]. *)
Definition ends_with (c : N) (s : str) : bool :=
  match last_char s with
  | Ret d => (d =? c)%N
  | Raise _ => false
  end.

(** The program compiled from a string of ordinary characters. *)
Definition literal_atoms (p : str) : regex :=
  List.map (fun c => Atom (atom_of_char c) QOne) p.

(** A duration for which [timedelta] does not overflow and an expiry
    instant that is a representable date. *)
Definition expiry_in_range (created duration : Z) : bool :=
  ((-999999999 <=? duration / 86400) && (duration / 86400 <=? 999999999)
   && (0 <=? created + duration * 1000000)
   && (created + duration * 1000000 <=? datetime_max))%Z.

(** A header table with the single entry [name: value]. *)
Definition header_only (name value : list N) : list N -> option (list N) :=
  fun n => if decide (n = name) then Some value else None.

(** A request whose only header is [Authorization: Basic é]. *)
Definition non_ascii_request : Auth.Request :=
  {| Auth.headers := header_only (py "Authorization") (py "Basic " ++ [233%N]);
     Auth.cookies := fun _ => None |}.

(** Two users registered under one email, with the same password. *)
Definition two_users : list (nat * list N) :=
  [(1%nat, py "pwd"); (2%nat, py "pwd")].

(** A password check for these users: the stored password is the one
    given. *)
Definition password_is (u : nat * list N) (pwd : list N) : bool :=
  bool_decide (snd u = pwd).

(** A session created at [t0] (a microsecond count in year 2025) for user
    ["42"], in the memory of [SessionExpAuth] and as a durable record. *)
Definition t0 : Z := 63900000000000000%Z.

Definition stored_session : SessionExpAuth.session_dict :=
  {| SessionExpAuth.user_id := py "42";
     SessionExpAuth.created_at := Some t0 |}.

Definition exp_auth (duration : Z) : SessionExpAuth.t :=
  {| SessionExpAuth.session_duration := duration;
     SessionExpAuth.user_id_by_session_id := {[ py "sid-1" := stored_session ]} |}.

Definition durable_session : SessionDBAuth.UserSession :=
  {| SessionDBAuth.user_id := py "42";
     SessionDBAuth.session_id := py "sid-1";
     SessionDBAuth.created_at := t0 |}.

(** A durable store that holds this one record. *)
Definition durable_search (sid : option (list N))
    : result (list SessionDBAuth.UserSession) :=
  Ret (if decide (sid = Some (py "sid-1")) then [durable_session] else []).

(** *** Vocabulary for the further properties *)

(** A pattern character that stands for itself. *)
Definition is_literal (c : N) : bool := is_plain c && negb (c =? 46)%N.

(** The text an exclusion entry requires at the start of the path: the
    stripped entry, without its final [*] or [/] if it has one. *)
Definition entry_prefix (x : str) : str :=
  let e := strip x in
  if ends_with 42 e || ends_with 47 e then removelast e else e.

Definition starts_with (p s : str) : bool :=
  match strip_prefix p s with
  | Some _ => true
  | None => false
  end.

(** An entry that is not empty once stripped and whose required prefix is
    made of literal characters. *)
Definition literal_entry (x : str) : bool :=
  nonempty (strip x) && forallb is_literal (entry_prefix x).

(** The prefixes of the paths that [App.excluded_paths] leaves open. *)
Definition open_prefixes : list str :=
  [py "/api/v1/status"; py "/api/v1/unauthorized";
   py "/api/v1/forbidden"; py "/api/v1/auth_session/login"].

Definition is_open (path : str) : bool :=
  existsb (fun p => starts_with p path) open_prefixes.

(** The values of [AUTH_TYPE] that select a class. *)
Definition auth_type_names : list str :=
  [py "auth"; py "basic_auth"; py "session_auth";
   py "session_exp_auth"; py "session_db_auth"].

(** A request without headers and cookies, and one that carries
    [Authorization: Basic Ym9iOnB3ZA==] (that is, [bob:pwd]). *)
Definition no_credentials : Auth.Request :=
  {| Auth.headers := fun _ => None; Auth.cookies := fun _ => None |}.

Definition bob_request : Auth.Request :=
  {| Auth.headers :=
       header_only (py "Authorization") (py "Basic Ym9iOnB3ZA==");
     Auth.cookies := fun _ => None |}.

(** A user store in which the email [bob] has the two users of
    [two_users]. *)
Definition bob_search (email : list N) : result (list (nat * list N)) :=
  Ret (if decide (email = py "bob") then two_users else []).

(** [s] holds no occurrence of the character [c]. *)
Definition free_of (c : N) (s : list N) : bool :=
  forallb (fun d => negb (d =? c)%N) s.

(** A log message made of [key=value] pairs, each closed by the separator
    character [sc]. *)
Fixpoint render (sc : N) (pairs : list (list N * list N)) : list N :=
  match pairs with
  | [] => []
  | kv :: rest => fst kv ++ [61%N] ++ snd kv ++ [sc] ++ render sc rest
  end.

Definition is_alternative (alts : list (list N)) (k : list N) : bool :=
  existsb (fun f => bool_decide (f = k)) alts.

(** Some end of the key [k] (the whole key and the empty end included)
    is one of the alternatives. *)
Fixpoint has_suffix_in (alts : list (list N)) (k : list N) : bool :=
  if is_alternative alts k then true
  else
    match k with
    | [] => false
    | _ :: k' => has_suffix_in alts k'
    end.

(** The pairs of [render] after redaction of the values whose key ends
    with a field. *)
Definition redact_pairs (fields : list (list N)) (redaction : list N)
    (pairs : list (list N * list N)) : list (list N * list N) :=
  List.map (fun kv =>
              (fst kv,
               if has_suffix_in (FilteredLogger.alternatives fields) (fst kv)
               then redaction else snd kv))
           pairs.

(** Keys free of [=], values free of [=] and of the separator. *)
Definition clean_pair (sc : N) (kv : list N * list N) : bool :=
  free_of 61 (fst kv) && free_of 61 (snd kv) && free_of sc (snd kv).

Definition clean_field (sc : N) (f : list N) : bool :=
  free_of 61 f && free_of sc f.

(** A character that occurs in no decimal integer literal: not a digit,
    a sign, an underscore or ASCII white space. *)
Definition not_int_char (c : N) : bool :=
  negb (is_digit c || is_ascii_space c
        || (c =? 43)%N || (c =? 45)%N || (c =? 95)%N).

(** The number a string of decimal digits denotes. *)
Definition decimal (ds : list N) : Z :=
  fold_left (fun a c => (a * 10 + Z.of_N (c - 48))%Z) ds 0%Z.

(** The sign and the digits part of a stripped integer literal, as
    [int_of_str] splits it. *)
Definition sign_and_body (t : list N) : Z * list N :=
  match t with
  | 43%N :: r => (1%Z, r)
  | 45%N :: r => ((-1)%Z, r)
  | _ => (1%Z, t)
  end.

(** A character of the Base64 alphabet, or the padding character. *)
Definition is_b64_char (c : N) : bool :=
  match table_a2b_base64 c with
  | Some _ => true
  | None => (c =? 61)%N
  end.

(** * Properties *)

(** ** Facts about [str.strip] *)

Section StripFacts.
Import Py.

Lemma lstrip_head (s : str) :
  lstrip s = [] \/ exists c x, lstrip s = c :: x /\ is_space c = false.
Proof.
  induction s as [|c s IH]; simpl; [now left|].
  destruct (is_space c) eqn:E; [exact IH|].
  right. now exists c, s.
Qed.

Lemma lstrip_fixed (c : N) (x : str) :
  is_space c = false -> lstrip (c :: x) = c :: x.
Proof. intros E. simpl. now rewrite E. Qed.

Lemma rstrip_cons_keep (c : N) (x : str) :
  is_space c = false -> rstrip (c :: x) = c :: rstrip x.
Proof. intros E. simpl. rewrite E. now destruct (rstrip x). Qed.

Lemma rstrip_cons_nonempty (c : N) (x : str) :
  rstrip x <> [] -> rstrip (c :: x) = c :: rstrip x.
Proof. intros H. simpl. destruct (rstrip x); [contradiction|reflexivity]. Qed.

Lemma rstrip_idem (s : str) : rstrip (rstrip s) = rstrip s.
Proof.
  induction s as [|c s IH]; simpl; [reflexivity|].
  destruct (rstrip s) as [|d r] eqn:E.
  - destruct (is_space c) eqn:Ec; simpl; [reflexivity|now rewrite Ec].
  - rewrite rstrip_cons_nonempty; rewrite IH; [reflexivity|discriminate].
Qed.

Lemma strip_idem (s : str) : strip (strip s) = strip s.
Proof.
  unfold strip.
  destruct (lstrip_head s) as [E|(c & x & E & Ec)]; rewrite E.
  - reflexivity.
  - rewrite (rstrip_cons_keep c x Ec), (lstrip_fixed _ _ Ec).
    rewrite (rstrip_cons_keep _ _ Ec). now rewrite rstrip_idem.
Qed.

Lemma lstrip_spaces (ws x : str) :
  forallb is_space ws = true -> lstrip (ws ++ x) = lstrip x.
Proof.
  induction ws as [|c ws IH]; simpl; [reflexivity|].
  intros H. apply andb_prop in H as [Hc Hws]. rewrite Hc. now apply IH.
Qed.

Lemma rstrip_spaces (ws x : str) :
  forallb is_space ws = true -> rstrip (x ++ ws) = rstrip x.
Proof.
  intros H.
  assert (Hws : rstrip ws = []).
  { induction ws as [|c ws IH]; simpl in *; [reflexivity|].
    apply andb_prop in H as [Hc Hws]. now rewrite (IH Hws), Hc. }
  induction x as [|c x IH]; simpl; [exact Hws|now rewrite IH].
Qed.

Lemma rstrip_length (s : str) : (length (rstrip s) <= length s)%nat.
Proof.
  induction s as [|c s IH]; simpl; [lia|].
  destruct (rstrip s); [destruct (is_space c)|]; simpl in *; lia.
Qed.

Lemma lstrip_length (s : str) : (length (lstrip s) <= length s)%nat.
Proof.
  induction s as [|c s IH]; simpl; [lia|].
  destruct (is_space c); simpl; lia.
Qed.

(** A string that [strip] leaves unchanged is unchanged by each half. *)
Lemma strip_fixed_halves (x : str) :
  strip x = x -> lstrip x = x /\ rstrip x = x.
Proof.
  unfold strip. intros H.
  assert (L : lstrip x = x).
  { destruct x as [|c x]; [reflexivity|]. simpl in *.
    destruct (is_space c); [|reflexivity].
    pose proof (rstrip_length (lstrip x)). pose proof (lstrip_length x).
    rewrite H in *. simpl in *. lia. }
  split; [exact L|]. now rewrite L in H.
Qed.

Lemma strip_padded (ws1 ws2 x : str) :
  forallb is_space ws1 = true -> forallb is_space ws2 = true ->
  strip x = x -> strip (ws1 ++ x ++ ws2) = x.
Proof.
  intros H1 H2 Hx. destruct (strip_fixed_halves x Hx) as [L R].
  unfold strip. rewrite lstrip_spaces by exact H1.
  destruct x as [|c x].
  - simpl. clear -H2. induction ws2 as [|d ws IH]; simpl in *; [reflexivity|].
    apply andb_prop in H2 as [Hd Hws]. rewrite Hd. now apply IH.
  - assert (Ec : is_space c = false).
    { simpl in L. destruct (is_space c); [|reflexivity].
      pose proof (lstrip_length x). rewrite L in *. simpl in *. lia. }
    change ((c :: x) ++ ws2) with (c :: (x ++ ws2)).
    rewrite (lstrip_fixed _ _ Ec).
    change (rstrip ((c :: x) ++ ws2) = c :: x).
    now rewrite rstrip_spaces.
Qed.

End StripFacts.

(** ** Facts about the regular-expression engine *)

Section RegexFacts.
Import Py.

Lemma strip_prefix_Some (pre s t : str) :
  strip_prefix pre s = Some t -> s = pre ++ t.
Proof.
  revert s. induction pre as [|c pre IH]; intros s H; simpl in *.
  - now inversion H.
  - destruct s as [|d s]; [discriminate|].
    destruct (N.eqb_spec d c); [|discriminate].
    subst d. now rewrite (IH s H).
Qed.

Lemma strip_prefix_app (pre t : str) : strip_prefix pre (pre ++ t) = Some t.
Proof.
  induction pre as [|c pre IH]; simpl; [reflexivity|].
  now rewrite N.eqb_refl.
Qed.

(** A run of literal characters consumes exactly that prefix. *)
Lemma run_literals (full : bool) (pre : str) (r : regex) (s : str)
    (pos : nat) (marks : list nat) :
  run full (List.map (fun c => Atom (CChar c) QOne) pre ++ r) s pos marks =
  match strip_prefix pre s with
  | Some t => run full r t (pos + length pre) marks
  | None => None
  end.
Proof.
  revert s pos. induction pre as [|c pre IH]; intros s pos; simpl.
  - now rewrite Nat.add_0_r.
  - destruct s as [|d s]; [reflexivity|].
    destruct (d =? c)%N; [|reflexivity].
    rewrite IH. now rewrite Nat.add_succ_r.
Qed.

(** [.+] followed by the closing mark, at the end of a full match: the
    rest of the subject must be non-empty and free of line feeds. *)
Lemma greedy_dot_to_end (marks : list nat) (s : str) (pos : nat) :
  greedy CDot
    (fun s' pos' =>
       match s' with [] => Some (marks ++ [pos']) | _ :: _ => None end) s pos =
  if forallb not_newline s then Some (marks ++ [pos + length s]) else None.
Proof.
  revert pos. induction s as [|c s IH]; intros pos; simpl.
  - now rewrite Nat.add_0_r.
  - unfold not_newline at 1. destruct (c =? 10)%N; simpl; [reflexivity|].
    rewrite IH, Nat.add_succ_r.
    now destruct (forallb not_newline s).
Qed.

Lemma run_dot_plus_end (marks : list nat) (s : str) (pos : nat) :
  run true [Atom CDot QPlus; Mark] s pos marks =
  if nonempty s && forallb not_newline s
  then Some (marks ++ [pos + length s]) else None.
Proof.
  destruct s as [|c s]; simpl; [reflexivity|].
  unfold not_newline at 1. destruct (c =? 10)%N; simpl; [reflexivity|].
  now rewrite greedy_dot_to_end, Nat.add_succ_r.
Qed.

Lemma slice_middle (a t b : str) :
  slice (a ++ t ++ b) (length a) (length a + length t) = t.
Proof.
  unfold slice. rewrite skipn_app, skipn_all, Nat.sub_diag, skipn_O, app_nil_l.
  replace (length a + length t - length a)%nat with (length t) by lia.
  rewrite firstn_app, firstn_all, Nat.sub_diag, firstn_O. apply app_nil_r.
Qed.

Lemma slice_suffix (a t : str) :
  slice (a ++ t) (length a) (length a + length t) = t.
Proof. rewrite <- (app_nil_r t) at 1. apply slice_middle. Qed.

End RegexFacts.

(** ** [BasicAuth]: what the two patterns accept *)

Section BasicAuthFacts.
Import Py BasicAuth.

Lemma basic_fullmatch (s : str) :
  re_fullmatch basic_pattern s =
  match strip_prefix (py "Basic ") s with
  | Some t =>
      if nonempty t && forallb not_newline t
      then Some [6; 6 + length t]%nat else None
  | None => None
  end.
Proof.
  unfold re_fullmatch, basic_pattern. rewrite run_literals.
  destruct (strip_prefix (py "Basic ") s) as [t|]; [|reflexivity].
  change (run true [Mark; Atom CDot QPlus; Mark] t (0 + length (py "Basic ")) [])
    with (run true [Atom CDot QPlus; Mark] t 6 [6%nat]).
  now rewrite run_dot_plus_end.
Qed.

Lemma extract_base64_authorization_header_char (h : str) :
  extract_base64_authorization_header (Some h) =
  match strip_prefix (py "Basic ") (strip h) with
  | Some t => if nonempty t && forallb not_newline t then Some t else None
  | None => None
  end.
Proof.
  unfold extract_base64_authorization_header. rewrite basic_fullmatch.
  destruct (strip_prefix (py "Basic ") (strip h)) as [t|] eqn:E; [|reflexivity].
  destruct (nonempty t && forallb not_newline t); [|reflexivity].
  apply strip_prefix_Some in E. rewrite E. f_equal.
  apply (slice_suffix (py "Basic ") t).
Qed.

Lemma after_user_colon (marks : list nat) (p : str) (pos : nat) :
  run true after_user (58%N :: p) pos marks =
  if nonempty p && forallb not_newline p
  then Some (marks ++ [pos; S pos; S pos + length p]%nat) else None.
Proof.
  change (run true after_user (58%N :: p) pos marks)
    with (run true [Atom CDot QPlus; Mark] p (S pos) ((marks ++ [pos]) ++ [S pos])).
  rewrite run_dot_plus_end.
  destruct (nonempty p && forallb not_newline p); [|reflexivity].
  now rewrite <- !app_assoc.
Qed.

Lemma after_user_other (marks : list nat) (c : N) (s : str) (pos : nat) :
  c <> 58%N -> run true after_user (c :: s) pos marks = None.
Proof.
  intros H. unfold after_user. cbn [run cset_mem].
  destruct (N.eqb_spec c 58); [contradiction|reflexivity].
Qed.

Lemma greedy_user (marks : list nat) (s : str) (pos : nat) :
  greedy (CNotChar 58) (fun s' pos' => run true after_user s' pos' marks) s pos =
  match split_first_colon s with
  | Some (u, p) =>
      if nonempty p && forallb not_newline p
      then Some (marks ++ [pos + length u; S (pos + length u);
                           S (pos + length u) + length p]%nat)
      else None
  | None => None
  end.
Proof.
  set (k := fun s' pos' => run true after_user s' pos' marks).
  revert pos. induction s as [|c s IH]; intros pos.
  - reflexivity.
  - cbn [greedy cset_mem split_first_colon].
    destruct (N.eqb_spec c 58) as [->|Hc]; cbn [negb].
    + unfold k. rewrite after_user_colon. now rewrite Nat.add_0_r.
    + rewrite IH. unfold k at 1.
      rewrite after_user_other by exact Hc.
      destruct (split_first_colon s) as [[u p]|]; [|reflexivity].
      cbn [length]. rewrite Nat.add_succ_r.
      now destruct (nonempty p && forallb not_newline p).
Qed.

Lemma run_mark_plus_cons (full : bool) (a : cset) (r : regex) (c : N)
    (s : str) (pos : nat) (marks : list nat) :
  run full (Mark :: Atom a QPlus :: r) (c :: s) pos marks =
  if cset_mem a c
  then greedy a (fun s' pos' => run full r s' pos' (marks ++ [pos])) s (S pos)
  else None.
Proof. reflexivity. Qed.

Lemma credentials_fullmatch (s : str) :
  re_fullmatch credentials_pattern s =
  match split_first_colon s with
  | Some (u, p) =>
      if nonempty u && nonempty p && forallb not_newline p
      then Some [0; length u; S (length u); S (length u) + length p]%nat
      else None
  | None => None
  end.
Proof.
  unfold re_fullmatch.
  destruct s as [|c s]; [reflexivity|].
  change credentials_pattern
    with (Mark :: Atom (CNotChar 58) QPlus :: after_user).
  rewrite run_mark_plus_cons.
  cbn [cset_mem split_first_colon].
  destruct (N.eqb_spec c 58) as [->|Hc]; cbn [negb]; [reflexivity|].
  change ([] ++ [0%nat]) with [0%nat].
  rewrite greedy_user.
  destruct (split_first_colon s) as [[u p]|]; reflexivity.
Qed.

Lemma split_first_colon_Some (s u p : str) :
  split_first_colon s = Some (u, p) ->
  s = u ++ 58%N :: p /\ forallb not_colon u = true.
Proof.
  revert u. induction s as [|c s IH]; intros u H; simpl in H; [discriminate|].
  destruct (N.eqb_spec c 58) as [->|Hc].
  - inversion H; subst. now split.
  - destruct (split_first_colon s) as [[u' p']|]; [|discriminate].
    inversion H; subst. destruct (IH u' eq_refl) as [-> Hu].
    split; [reflexivity|]. simpl. rewrite Hu. unfold not_colon.
    now destruct (N.eqb_spec c 58).
Qed.

Lemma split_first_colon_app (u p : str) :
  forallb not_colon u = true ->
  split_first_colon (u ++ 58%N :: p) = Some (u, p).
Proof.
  induction u as [|c u IH]; simpl; [reflexivity|].
  intros H. apply andb_prop in H as [Hc Hu].
  unfold not_colon in Hc. destruct (c =? 58)%N; [discriminate|].
  now rewrite (IH Hu).
Qed.

Lemma split_first_colon_None (s : str) :
  forallb not_colon s = true -> split_first_colon s = None.
Proof.
  induction s as [|c s IH]; simpl; [reflexivity|].
  intros H. apply andb_prop in H as [Hc Hs].
  unfold not_colon in Hc. destruct (c =? 58)%N; [discriminate|].
  now rewrite (IH Hs).
Qed.

Lemma extract_user_credentials_char (d : str) :
  extract_user_credentials (Some d) = credentials_of (strip d).
Proof.
  unfold extract_user_credentials, credentials_of.
  rewrite credentials_fullmatch.
  destruct (split_first_colon (strip d)) as [[u p]|] eqn:E; [|reflexivity].
  destruct (nonempty u && nonempty p && forallb not_newline p); [|reflexivity].
  apply split_first_colon_Some in E as [E _]. rewrite E.
  unfold group. cbn [Nat.mul Nat.add nth].
  change (u ++ 58%N :: p) with ([] ++ u ++ 58%N :: p) at 1.
  f_equal; f_equal.
  - apply (slice_middle [] u (58%N :: p)).
  - change (u ++ 58%N :: p) with (u ++ [58%N] ++ p). rewrite app_assoc.
    replace (S (length u)) with (length (u ++ [58%N]))
      by (rewrite length_app; simpl; lia).
    replace (S (length u + length p))%nat
      with (length (u ++ [58%N]) + length p)%nat
      by (rewrite length_app; simpl; lia).
    apply slice_suffix.
Qed.

End BasicAuthFacts.

(** ** UTF-8 and Base64 round trips *)

Section CodecFacts.
Import Py.
Local Open Scope N_scope.

Ltac Zify.zify_post_hook ::= Z.to_euclidean_division_equations.

(** Decide the comparisons on which a decoder branches. *)
Ltac settle_tests :=
  repeat match goal with
  | |- context [N.ltb ?a ?b] =>
      first [ rewrite (proj2 (N.ltb_lt a b)) by lia
            | rewrite (proj2 (N.ltb_ge a b)) by lia ]
  | |- context [N.leb ?a ?b] =>
      first [ rewrite (proj2 (N.leb_le a b)) by lia
            | rewrite (proj2 (N.leb_gt a b)) by lia ]
  | |- context [N.eqb ?a ?b] =>
      first [ rewrite (proj2 (N.eqb_eq a b)) by lia
            | rewrite (proj2 (N.eqb_neq a b)) by lia ]
  end.

Lemma utf8_decode_encode_cp (c : N) (cb rest : bytes) :
  utf8_encode_cp c = Ret cb ->
  utf8_decode (cb ++ rest) = cons_ret c (utf8_decode rest)
  /\ Forall (fun b => b < 256) cb.
Proof.
  unfold utf8_encode_cp.
  destruct (N.ltb_spec c 0x80) as [H1|H1].
  { intros E; inversion E; subst cb; clear E. split.
    - cbn [app utf8_decode]. now settle_tests.
    - repeat constructor; lia. }
  destruct (N.ltb_spec c 0x800) as [H2|H2].
  { intros E; inversion E; subst cb; clear E.
    set (b0 := 0xc0 + c / 64). set (b1 := 0x80 + c mod 64).
    assert (Hb0 : 0xc2 <= b0 < 0xe0) by (unfold b0; lia).
    assert (Hb1 : 0x80 <= b1 < 0xc0) by (unfold b1; lia).
    assert (Hc : (b0 - 0xc0) * 64 + (b1 - 0x80) = c) by (unfold b0, b1; lia).
    clearbody b0 b1. split.
    - cbn [app utf8_decode]. unfold is_cont. settle_tests. cbn [andb].
      now rewrite Hc.
    - repeat constructor; lia. }
  destruct (N.ltb_spec c 0x10000) as [H3|H3].
  { destruct ((0xd800 <=? c) && (c <=? 0xdfff)) eqn:Hs; [discriminate|].
    intros E; inversion E; subst cb; clear E.
    set (b0 := 0xe0 + c / 4096). set (b1 := 0x80 + (c / 64) mod 64).
    set (b2 := 0x80 + c mod 64).
    assert (Hb0 : 0xe0 <= b0 < 0xf0) by (unfold b0; lia).
    assert (Hb1 : 0x80 <= b1 < 0xc0) by (unfold b1; lia).
    assert (Hb2 : 0x80 <= b2 < 0xc0) by (unfold b2; lia).
    assert (Hc : (b0 - 0xe0) * 4096 + (b1 - 0x80) * 64 + (b2 - 0x80) = c)
      by (unfold b0, b1, b2; lia).
    clearbody b0 b1 b2. split.
    - cbn [app utf8_decode]. cbv zeta. rewrite Hc, Hs. unfold is_cont.
      settle_tests. reflexivity.
    - repeat constructor; lia. }
  destruct (N.ltb_spec c 0x110000) as [H4|H4]; [|discriminate].
  intros E; inversion E; subst cb; clear E.
  set (b0 := 0xf0 + c / 262144). set (b1 := 0x80 + (c / 4096) mod 64).
  set (b2 := 0x80 + (c / 64) mod 64). set (b3 := 0x80 + c mod 64).
  assert (Hb0 : 0xf0 <= b0 < 0xf5) by (unfold b0; lia).
  assert (Hb1 : 0x80 <= b1 < 0xc0) by (unfold b1; lia).
  assert (Hb2 : 0x80 <= b2 < 0xc0) by (unfold b2; lia).
  assert (Hb3 : 0x80 <= b3 < 0xc0) by (unfold b3; lia).
  assert (Hc : (b0 - 0xf0) * 262144 + (b1 - 0x80) * 4096
               + (b2 - 0x80) * 64 + (b3 - 0x80) = c)
    by (unfold b0, b1, b2, b3; lia).
  clearbody b0 b1 b2 b3. split.
  - cbn [app utf8_decode]. cbv zeta. rewrite Hc. unfold is_cont.
    settle_tests. reflexivity.
  - repeat constructor; lia.
Qed.

Lemma utf8_decode_encode (s : str) (bs : bytes) :
  utf8_encode s = Ret bs ->
  utf8_decode bs = Ret s /\ Forall (fun b => b < 256) bs.
Proof.
  revert bs. induction s as [|c s IH]; intros bs; simpl.
  - intros E; inversion E; subst. now split.
  - destruct (utf8_encode_cp c) as [cb|] eqn:Ec; [|discriminate]. simpl.
    destruct (utf8_encode s) as [bs'|]; [|discriminate]. simpl.
    intros E; inversion E; subst bs; clear E.
    destruct (IH bs' eq_refl) as [Hd Hr].
    destruct (utf8_decode_encode_cp c cb bs' Ec) as [Hd' Hr'].
    split; [|now apply Forall_app].
    rewrite Hd', Hd. reflexivity.
Qed.

Lemma b64char_ascii (n : N) : b64char n < 128.
Proof.
  unfold b64char.
  repeat match goal with
  | |- context [N.ltb ?a ?b] => destruct (N.ltb_spec a b)
  | |- context [N.eqb ?a ?b] => destruct (N.eqb_spec a b)
  end; lia.
Qed.

Lemma b64char_not_pad (n : N) : b64char n <> 61.
Proof.
  unfold b64char.
  repeat match goal with
  | |- context [N.ltb ?a ?b] => destruct (N.ltb_spec a b)
  | |- context [N.eqb ?a ?b] => destruct (N.eqb_spec a b)
  end; lia.
Qed.

Lemma table_b64char (n : N) : n < 64 -> table_a2b_base64 (b64char n) = Some n.
Proof.
  intros Hn. unfold b64char, table_a2b_base64.
  destruct (N.ltb_spec n 26); [settle_tests; cbn [andb]; f_equal; lia|].
  destruct (N.ltb_spec n 52); [settle_tests; cbn [andb]; f_equal; lia|].
  destruct (N.ltb_spec n 62); [settle_tests; cbn [andb]; f_equal; lia|].
  destruct (N.eqb_spec n 62); [subst; reflexivity|].
  assert (n = 63) by lia. subst. reflexivity.
Qed.

(** One data character moves the decoder on by one sextet. *)
Lemma a2b_loop_data (v : N) (s : str) (quad_pos : nat) (leftchar : N)
    (out : bytes) :
  v < 64 ->
  a2b_loop (b64char v :: s) quad_pos leftchar 0 false out =
  match quad_pos with
  | 0%nat => a2b_loop s 1 v 0 false out
  | 1%nat => a2b_loop s 2 (v mod 16) 0 false (out ++ [leftchar * 4 + v / 16])
  | 2%nat => a2b_loop s 3 (v mod 4) 0 false (out ++ [leftchar * 16 + v / 4])
  | _ => a2b_loop s 0 0 0 false (out ++ [leftchar * 64 + v])
  end.
Proof.
  intros Hv. cbn [a2b_loop].
  rewrite (proj2 (N.eqb_neq _ _) (b64char_not_pad v)).
  now rewrite (table_b64char v Hv).
Qed.

(** Lists by steps of three, as [b64encode] consumes them. *)
Lemma list_ind3 {A : Type} (P : list A -> Prop) :
  P [] -> (forall a, P [a]) -> (forall a b, P [a; b]) ->
  (forall a b c l, P l -> P (a :: b :: c :: l)) ->
  forall l, P l.
Proof.
  intros H0 H1 H2 H3.
  fix IH 1.
  intros [|a [|b [|c l]]]; [exact H0|apply H1|apply H2|apply H3, IH].
Qed.

Lemma a2b_loop_b64encode (bs : bytes) (l : N) (out : bytes) :
  Forall (fun b => b < 256) bs ->
  a2b_loop (b64encode bs) 0 l 0 false out = Ret (out ++ bs).
Proof.
  revert l out. induction bs as [|a|a b|a b c bs IH] using list_ind3;
    intros l out Hr.
  - cbn. now rewrite app_nil_r.
  - apply Forall_cons_iff in Hr as [Ha _].
    cbn [b64encode]. rewrite !a2b_loop_data by lia.
    cbn. do 3 f_equal. lia.
  - apply Forall_cons_iff in Hr as [Ha Hr].
    apply Forall_cons_iff in Hr as [Hb _].
    cbn [b64encode]. rewrite !a2b_loop_data by lia.
    cbn. rewrite <- app_assoc. cbn [app]. do 3 f_equal; [lia|f_equal; lia].
  - apply Forall_cons_iff in Hr as [Ha Hr].
    apply Forall_cons_iff in Hr as [Hb Hr].
    apply Forall_cons_iff in Hr as [Hc Hr].
    cbn [b64encode]. rewrite !a2b_loop_data by lia.
    rewrite IH by exact Hr. rewrite <- !app_assoc. cbn [app].
    do 3 f_equal; [lia|]. f_equal; [lia|]. f_equal. lia.
Qed.

Lemma b64encode_ascii (bs : bytes) :
  existsb (fun c => 128 <=? c) (b64encode bs) = false.
Proof.
  assert (H : forall n, (128 <=? b64char n) = false)
    by (intros n; apply N.leb_gt, b64char_ascii).
  induction bs as [|a|a b|a b c bs IH] using list_ind3;
    cbn [b64encode existsb]; rewrite ?H, ?IH; reflexivity.
Qed.

Lemma b64decode_b64encode (bs : bytes) :
  Forall (fun b => b < 256) bs ->
  b64decode_validate (b64encode bs) = Ret bs.
Proof.
  intros Hr. unfold b64decode_validate. rewrite b64encode_ascii.
  rewrite (a2b_loop_b64encode bs 0 [] Hr). cbn [app].
  destruct (b64encode bs) as [|ch s] eqn:E; [reflexivity|].
  assert (Hp : ch <> 61).
  { destruct bs as [|a [|b [|c r]]]; cbn [b64encode] in E;
      [discriminate| | |]; inversion E; apply b64char_not_pad. }
  destruct ch as [|p]; [reflexivity|].
  repeat (destruct p as [p|p|]; try reflexivity).
  contradiction.
Qed.

End CodecFacts.

(** ** [Auth.require_auth] *)

Section AuthFacts.
Import Py Auth.

Lemma bind_ret_assoc {A B C : Type} (r : result A) (f : A -> B) (g : B -> C) :
  bind (bind r (fun a => Ret (f a))) (fun b => Ret (g b)) =
  bind r (fun a => Ret (g (f a))).
Proof. now destruct r. Qed.

Lemma compile_atoms_plain (p q : str) :
  forallb is_plain p = true ->
  hd 0%N q <> 42%N ->
  compile_atoms (p ++ q) =
  bind (compile_atoms q) (fun r => Ret (literal_atoms p ++ r)).
Proof.
  intros Hp Hq. induction p as [|c p IH].
  - cbn [app literal_atoms List.map]. now destruct (compile_atoms q).
  - cbn [forallb] in Hp. apply andb_prop in Hp as [Hc Hp].
    specialize (IH Hp).
    assert (Hc42 : (c =? 42)%N = false).
    { unfold is_plain in Hc. apply andb_prop in Hc as [_ Hc].
      now destruct (c =? 42)%N. }
    change ((c :: p) ++ q) with (c :: (p ++ q)).
    cbn [compile_atoms]. rewrite Hc42.
    destruct (p ++ q) as [|c' t] eqn:E.
    + apply app_eq_nil in E as [-> ->]. reflexivity.
    + assert (Hc' : (c' =? 42)%N = false).
      { destruct p as [|d p].
        - cbn [app] in E. subst q. cbn [hd] in Hq.
          now destruct (N.eqb_spec c' 42).
        - cbn [app] in E. inversion E; subst c' t.
          cbn [forallb] in Hp. apply andb_prop in Hp as [Hd _].
          unfold is_plain in Hd. apply andb_prop in Hd as [_ Hd].
          now destruct (d =? 42)%N. }
      rewrite Hc', IH.
      exact (bind_ret_assoc (compile_atoms q) _ _).
Qed.

Lemma plain_not_special (p q : str) :
  forallb is_plain p = true ->
  existsb is_unmodelled_special q = false ->
  existsb is_unmodelled_special (p ++ q) = false.
Proof.
  intros Hp Hq. rewrite existsb_app, Hq, orb_false_r.
  induction p as [|c p IH]; [reflexivity|].
  cbn [forallb existsb] in *. apply andb_prop in Hp as [Hc Hp].
  rewrite (IH Hp), orb_false_r.
  unfold is_plain in Hc. apply andb_prop in Hc as [Hc _].
  now destruct (is_unmodelled_special c).
Qed.

Lemma atom_of_char_self (c : N) : cset_mem (atom_of_char c) c = true.
Proof.
  unfold atom_of_char. destruct (N.eqb_spec c 46) as [->|H]; cbn.
  - reflexivity.
  - apply N.eqb_refl.
Qed.

Lemma run_literal_atoms (full : bool) (p : str) (r : regex) (s : str)
    (pos : nat) (marks : list nat) :
  run full (literal_atoms p ++ r) (p ++ s) pos marks =
  run full r s (pos + length p) marks.
Proof.
  revert pos. induction p as [|c p IH]; intros pos.
  - cbn. now rewrite Nat.add_0_r.
  - cbn [literal_atoms List.map app run]. rewrite atom_of_char_self.
    fold (literal_atoms p). rewrite IH. cbn [length].
    now rewrite Nat.add_succ_r.
Qed.

Lemma greedy_always {X : Type} (a : cset) (k : str -> nat -> option X)
    (s : str) (pos : nat) :
  (forall s' pos', k s' pos' <> None) -> greedy a k s pos <> None.
Proof.
  intros Hk. revert pos. induction s as [|c s IH]; intros pos; cbn.
  - apply Hk.
  - destruct (cset_mem a c); [|apply Hk].
    specialize (IH (S pos)). destruct (greedy a k s (S pos)); congruence.
Qed.

(** A plain exclusion entry that ends in neither [*] nor [/] matches the
    path that is equal to it. *)
Lemma plain_entry_matches_itself (e : str) :
  nonempty e = true -> strip e = e -> forallb is_plain e = true ->
  ends_with 47 e = false ->
  entry_matches e e = Some (Ret true).
Proof.
  intros Hne Hs Hp Hslash.
  assert (Hstar : ends_with 42 e = false).
  { clear -Hp Hne. induction e as [|c e IH]; [discriminate|].
    cbn [forallb] in Hp. apply andb_prop in Hp as [Hc Hp].
    destruct e as [|d e].
    - unfold ends_with. cbn. unfold is_plain in Hc.
      apply andb_prop in Hc as [_ Hc]. now destruct (c =? 42)%N.
    - apply (IH eq_refl Hp). }
  unfold entry_matches, exclusion_pattern. rewrite Hs.
  unfold ends_with in Hslash, Hstar.
  destruct (last_char e) as [c|x] eqn:El.
  2:{ destruct e as [|a e]; [discriminate|]. clear -El. exfalso.
      revert a El. induction e as [|b e IH]; intros a El; cbn in El;
        [discriminate|]. exact (IH b El). }
  cbn [bind]. rewrite Hstar, Hslash.
  unfold re_match, re_compile.
  rewrite (plain_not_special e (py "/*") Hp eq_refl).
  rewrite (compile_atoms_plain e (py "/*") Hp) by discriminate.
  cbn [bind].
  change (compile_atoms (py "/*")) with (@Ret (list op) [Atom (CChar 47) QStar]).
  cbn [bind]. unfold re_match_compiled.
  rewrite <- (app_nil_r e) at 2. rewrite run_literal_atoms.
  cbn [run].
  destruct (greedy (CChar 47) (fun _ _ => Some []) [] (0 + length e)) eqn:G;
    [reflexivity|].
  exfalso. revert G. apply greedy_always. discriminate.
Qed.

Lemma entry_ok_total (x path : str) :
  entry_ok x = true -> exists b, entry_matches x path = Some (Ret b).
Proof.
  unfold entry_ok, entry_matches, re_match.
  destruct (exclusion_pattern (strip x)) as [pattern|]; [|discriminate].
  destruct (re_compile pattern) as [[r|]|]; try discriminate.
  intros _. eauto.
Qed.

(** The loop stops with [False] at the first matching entry, provided the
    entries before it are processed without raising. *)
Lemma require_auth_loop_hit (path : str) (l1 : list str) (x : str)
    (l2 : list str) :
  forallb entry_ok l1 = true ->
  entry_matches x path = Some (Ret true) ->
  require_auth_loop path (l1 ++ x :: l2) = Some (Ret false).
Proof.
  intros H1 Hx. induction l1 as [|y l1 IH]; cbn [app require_auth_loop].
  - now rewrite Hx.
  - cbn [forallb] in H1. apply andb_prop in H1 as [Hy H1].
    destruct (entry_ok_total y path Hy) as [[|] ->]; [reflexivity|].
    exact (IH H1).
Qed.

(** The loop raises [IndexError] at an entry that is empty once stripped,
    provided no entry before it matches. *)
Lemma require_auth_loop_empty_entry (path : str) (l1 : list str) (e : str)
    (l2 : list str) :
  forallb (entry_misses path) l1 = true ->
  strip e = [] ->
  require_auth_loop path (l1 ++ e :: l2) = Some (Raise IndexError).
Proof.
  intros H1 He. induction l1 as [|y l1 IH]; cbn [app require_auth_loop].
  - unfold entry_matches. now rewrite He.
  - cbn [forallb] in H1. apply andb_prop in H1 as [Hy H1].
    unfold entry_misses in Hy.
    destruct (entry_matches y path) as [[[|]|]|]; try discriminate.
    exact (IH H1).
Qed.

End AuthFacts.

(** ** Expiring and durable sessions *)

Section SessionFacts.
Import Py.
Local Open Scope Z_scope.

Lemma expiry_arithmetic (created duration : Z) :
  expiry_in_range created duration = true ->
  bind (timedelta_seconds duration) (datetime_add created) =
  Ret (created + duration * 1000000).
Proof.
  unfold expiry_in_range, timedelta_seconds, datetime_add. intros H.
  apply andb_prop in H as [H H4]. apply andb_prop in H as [H H3].
  rewrite H. cbn [bind]. now rewrite H3, H4.
Qed.

(** [SessionExpAuth]: a duration of zero or less never expires. *)
Lemma exp_never_expires (self : SessionExpAuth.t) (now : Z) (sid : list N)
    (sd : SessionExpAuth.session_dict) :
  SessionExpAuth.session_duration self <= 0 ->
  SessionExpAuth.user_id_by_session_id self !! sid = Some sd ->
  SessionExpAuth.user_id_for_session_id self now (Some sid) =
  Ret (Some (SessionExpAuth.user_id sd)).
Proof.
  intros Hd Hs. unfold SessionExpAuth.user_id_for_session_id.
  rewrite Hs. now rewrite (proj2 (Z.leb_le _ _) Hd).
Qed.

(** [SessionExpAuth]: with a positive duration the session is refused
    exactly when the clock is strictly after [created_at + duration]. *)
Lemma exp_positive_duration (self : SessionExpAuth.t) (now : Z)
    (sid uid : list N) (created : Z) :
  0 < SessionExpAuth.session_duration self ->
  SessionExpAuth.user_id_by_session_id self !! sid =
    Some {| SessionExpAuth.user_id := uid;
            SessionExpAuth.created_at := Some created |} ->
  expiry_in_range created (SessionExpAuth.session_duration self) = true ->
  SessionExpAuth.user_id_for_session_id self now (Some sid) =
  Ret (if created + SessionExpAuth.session_duration self * 1000000 <? now
       then None else Some uid).
Proof.
  intros Hd Hs Hr. unfold SessionExpAuth.user_id_for_session_id.
  rewrite Hs. rewrite (proj2 (Z.leb_gt _ _) Hd). cbn [SessionExpAuth.created_at].
  pose proof (expiry_arithmetic _ _ Hr) as E.
  destruct (timedelta_seconds (SessionExpAuth.session_duration self))
    as [span|]; [|discriminate].
  cbn [bind] in *. rewrite E. cbn [bind SessionExpAuth.user_id].
  now destruct (_ <? now).
Qed.

(** A session made by [create_session] is stored with its creation time. *)
Lemma exp_create_session_stored (self : SessionExpAuth.t) (t0 : Z)
    (fresh uid : list N) :
  let '(self', sid) :=
    SessionExpAuth.create_session self t0 fresh (Some uid) in
  sid = Some fresh /\
  SessionExpAuth.session_duration self' = SessionExpAuth.session_duration self /\
  SessionExpAuth.user_id_by_session_id self' !! fresh =
    Some {| SessionExpAuth.user_id := uid;
            SessionExpAuth.created_at := Some t0 |}.
Proof.
  cbn. repeat split. apply lookup_insert_eq.
Qed.

Section Durable.
Variable search : option (list N) -> result (list SessionDBAuth.UserSession).

(** [SessionDBAuth] with a positive duration decides as [SessionExpAuth]
    does on the same stored data. *)
Lemma db_agrees_when_positive (self : SessionExpAuth.t) (now : Z)
    (sid : list N) (s0 : SessionDBAuth.UserSession)
    (rest : list SessionDBAuth.UserSession) :
  0 < SessionExpAuth.session_duration self ->
  search (Some sid) = Ret (s0 :: rest) ->
  SessionExpAuth.user_id_by_session_id self !! sid =
    Some {| SessionExpAuth.user_id := SessionDBAuth.user_id s0;
            SessionExpAuth.created_at := Some (SessionDBAuth.created_at s0) |} ->
  SessionDBAuth.user_id_for_session_id search
    (SessionExpAuth.session_duration self) now (Some sid) =
  SessionExpAuth.user_id_for_session_id self now (Some sid).
Proof.
  intros Hd Hq Hs.
  unfold SessionDBAuth.user_id_for_session_id,
    SessionExpAuth.user_id_for_session_id.
  rewrite Hq, Hs. now rewrite (proj2 (Z.leb_gt _ _) Hd).
Qed.

(** [SessionDBAuth] has no guard for a duration of zero or less: the
    record is refused as soon as the clock has passed
    [created_at + duration]. *)
Lemma db_nonpositive_duration_expires (duration now : Z) (sid : option (list N))
    (s0 : SessionDBAuth.UserSession) (rest : list SessionDBAuth.UserSession) :
  duration <= 0 ->
  search sid = Ret (s0 :: rest) ->
  expiry_in_range (SessionDBAuth.created_at s0) duration = true ->
  SessionDBAuth.created_at s0 < now ->
  SessionDBAuth.user_id_for_session_id search duration now sid = Ret None.
Proof.
  intros Hd Hq Hr Hn. unfold SessionDBAuth.user_id_for_session_id.
  rewrite Hq. pose proof (expiry_arithmetic _ _ Hr) as E.
  destruct (timedelta_seconds duration) as [span|]; [|discriminate].
  cbn [bind] in *. rewrite E. cbn [bind].
  now rewrite (proj2 (Z.ltb_lt _ _)) by lia.
Qed.

End Durable.

End SessionFacts.

(** ** Further facts about [strip] used below *)

Section StripMoreFacts.
Import Py.

Lemma lstrip_forallb (P : N -> bool) (s : str) :
  forallb P s = true -> forallb P (lstrip s) = true.
Proof.
  induction s as [|c s IH]; [reflexivity|].
  intros H. cbn [lstrip]. destruct (is_space c); [|exact H].
  cbn [forallb] in H. apply andb_prop in H as [_ H]. exact (IH H).
Qed.

Lemma rstrip_forallb (P : N -> bool) (s : str) :
  forallb P s = true -> forallb P (rstrip s) = true.
Proof.
  induction s as [|c s IH]; [reflexivity|].
  intros H. cbn [forallb] in H. apply andb_prop in H as [Hc H].
  specialize (IH H). cbn [rstrip].
  destruct (rstrip s) as [|d r].
  - destruct (is_space c); [reflexivity|]. cbn. now rewrite Hc.
  - cbn [forallb] in *. now rewrite Hc.
Qed.

Lemma strip_forallb (P : N -> bool) (s : str) :
  forallb P s = true -> forallb P (strip s) = true.
Proof. intros H. apply rstrip_forallb, lstrip_forallb, H. Qed.

Lemma rstrip_snoc_keep (x : str) (c : N) :
  is_space c = false -> rstrip (x ++ [c]) = x ++ [c].
Proof.
  intros Hc. induction x as [|d x IH].
  - cbn. now rewrite Hc.
  - change ((d :: x) ++ [c]) with (d :: (x ++ [c])).
    rewrite rstrip_cons_nonempty; rewrite IH; [reflexivity|].
    now destruct x.
Qed.

Lemma lstrip_snoc_keep (x : str) (c : N) :
  is_space c = false -> lstrip (x ++ [c]) = lstrip x ++ [c].
Proof.
  intros Hc. induction x as [|d x IH].
  - cbn. now rewrite Hc.
  - cbn [app lstrip]. now destruct (is_space d).
Qed.

End StripMoreFacts.

(** ** The claims *)

Section Claims.
Import Py.

(** The two exclusions that C1 states hold on the code. For every
    exclusion list that contains the trailing-slash entry
    [/api/v1/status/] and whose entries before it are non-empty once
    stripped and have a pattern that compiles, [require_auth] returns
    [False] for the paths [/api/v1/status/] and
    [/api/v1/status/anything]. *)
Theorem require_auth_status_slash_excluded (l1 l2 : list (list N)) :
  forallb entry_ok l1 = true ->
  Auth.require_auth (Some (py "/api/v1/status/"))
    (Some (l1 ++ py "/api/v1/status/" :: l2)) = Some (Ret false)
  /\ Auth.require_auth (Some (py "/api/v1/status/anything"))
       (Some (l1 ++ py "/api/v1/status/" :: l2)) = Some (Ret false).
Proof.
  intros H. split; apply require_auth_loop_hit; auto; reflexivity.
Qed.

Lemma require_auth_status_slash_excluded_witness :
  Auth.require_auth (Some (py "/api/v1/status/"))
    (Some ([py "/api/v1/users"; py " /api/v1/stats* "]
           ++ py "/api/v1/status/" :: [py ""])) = Some (Ret false)
  /\ Auth.require_auth (Some (py "/api/v1/status/anything"))
       (Some ([py "/api/v1/users"; py " /api/v1/stats* "]
              ++ py "/api/v1/status/" :: [py ""])) = Some (Ret false).
Proof.
  apply (require_auth_status_slash_excluded
           [py "/api/v1/users"; py " /api/v1/stats* "] [py ""]).
  reflexivity.
Defined.

(** C1: the code at the failing input. With the single exclusion entry
    [/api/v1/status/], [require_auth] returns [False] for the path
    [/api/v1/statuses], where the claim says [True]: the entry becomes the
    expression [/api/v1/status/*], in which [/*] stands for any number of
    slashes, none included, and [re.match] accepts a match of a prefix of
    the path. For [/api/v1/status/] and [/api/v1/status/anything] it
    returns [False], as the claim says. *)
Theorem require_auth_trailing_slash_over_match :
  Auth.exclusion_pattern (strip (py "/api/v1/status/")) =
    Ret (py "/api/v1/status/*")
  /\ Auth.require_auth (Some (py "/api/v1/statuses"))
       (Some [py "/api/v1/status/"]) = Some (Ret false)
  /\ Auth.require_auth (Some (py "/api/v1/status/"))
       (Some [py "/api/v1/status/"]) = Some (Ret false)
  /\ Auth.require_auth (Some (py "/api/v1/status/anything"))
       (Some [py "/api/v1/status/"]) = Some (Ret false).
Proof. repeat split; reflexivity. Qed.

(** C2 (as amended). For every non-empty, already stripped exclusion entry
    made of ordinary characters that ends in neither [*] nor [/],
    [require_auth] applied to the path equal to the entry returns [False]:
    the exact path matches the exclusion (entries before it being
    processed without raising). *)
Theorem require_auth_exact_path_excluded (e : list N)
    (l1 l2 : list (list N)) :
  nonempty e = true -> strip e = e -> forallb is_plain e = true ->
  ends_with 42 e = false -> ends_with 47 e = false ->
  forallb entry_ok l1 = true ->
  Auth.require_auth (Some e) (Some (l1 ++ e :: l2)) = Some (Ret false).
Proof.
  intros Hne Hs Hp _ Hslash H1.
  apply require_auth_loop_hit; [exact H1|].
  now apply plain_entry_matches_itself.
Qed.

Lemma require_auth_exact_path_excluded_witness :
  Auth.require_auth (Some (py "/api/v1/users"))
    (Some ([py "/api/v1/status/"] ++ py "/api/v1/users" :: [])) =
  Some (Ret false).
Proof.
  apply (require_auth_exact_path_excluded (py "/api/v1/users")
           [py "/api/v1/status/"] []); reflexivity.
Defined.

(** C2, as stated, fails: the path equal to the entry [/api/v1/status]
    does not require authentication. *)
Lemma require_auth_exact_path_not_required :
  Auth.require_auth (Some (py "/api/v1/status"))
    (Some [py "/api/v1/status"]) = Some (Ret false).
Proof. reflexivity. Qed.

(** C9 (as amended). For a path that is present and an exclusion list in
    which an entry that is empty once stripped comes before any entry
    matching the path, [require_auth] raises [IndexError]. *)
Theorem require_auth_empty_entry_raises (path e : list N)
    (l1 l2 : list (list N)) :
  strip e = [] ->
  forallb (entry_misses path) l1 = true ->
  Auth.require_auth (Some path) (Some (l1 ++ e :: l2)) =
  Some (Raise IndexError).
Proof.
  intros He H1. now apply require_auth_loop_empty_entry.
Qed.

Lemma require_auth_empty_entry_raises_witness :
  Auth.require_auth (Some (py "/api/v1/users"))
    (Some ([py "/api/v1/status/"] ++ py "   " :: [py "/api/v1/users"])) =
  Some (Raise IndexError).
Proof.
  apply (require_auth_empty_entry_raises (py "/api/v1/users") (py "   ")
           [py "/api/v1/status/"] [py "/api/v1/users"]); reflexivity.
Defined.

(** C9, as stated, fails: an empty entry placed after a matching one is
    never reached, and an absent path skips the loop. *)
Lemma require_auth_empty_entry_unreached :
  Auth.require_auth (Some (py "/api/v1/status"))
    (Some [py "/api/v1/status/"; py ""]) = Some (Ret false)
  /\ Auth.require_auth None (Some [py ""]) = Some (Ret true).
Proof. split; reflexivity. Qed.

(** C7 (as amended). [extract_user_credentials] works on the stripped
    text. When that text is [u:p] with [u] non-empty and free of colons and
    [p] non-empty and free of line feeds, it returns [(u, p)]: the cut is
    at the first colon and the secret may contain colons. When the text
    holds no colon it returns [(None, None)]. In particular ["a:b:c"] gives
    [("a", "b:c")] and ["noColon"] gives [(None, None)]. *)
Theorem extract_user_credentials_first_colon (d u p d' : list N) :
  strip d = u ++ 58%N :: p ->
  forallb not_colon u = true -> nonempty u = true ->
  nonempty p = true -> forallb not_newline p = true ->
  forallb not_colon d' = true ->
  BasicAuth.extract_user_credentials (Some d) = (Some u, Some p)
  /\ BasicAuth.extract_user_credentials (Some d') = (None, None)
  /\ BasicAuth.extract_user_credentials (Some (py "a:b:c")) =
       (Some (py "a"), Some (py "b:c"))
  /\ BasicAuth.extract_user_credentials (Some (py "noColon")) = (None, None).
Proof.
  intros Hd Hu Hu' Hp Hp' Hd'. repeat split; try reflexivity.
  - rewrite extract_user_credentials_char, Hd. unfold credentials_of.
    rewrite (split_first_colon_app u p Hu). now rewrite Hu', Hp, Hp'.
  - rewrite extract_user_credentials_char. unfold credentials_of.
    now rewrite (split_first_colon_None _ (strip_forallb _ _ Hd')).
Qed.

Lemma extract_user_credentials_first_colon_witness :
  BasicAuth.extract_user_credentials (Some (py "  bob@hbtn.io:pw:d 1 ")) =
    (Some (py "bob@hbtn.io"), Some (py "pw:d 1"))
  /\ BasicAuth.extract_user_credentials (Some (py "bob")) = (None, None)
  /\ BasicAuth.extract_user_credentials (Some (py "a:b:c")) =
       (Some (py "a"), Some (py "b:c"))
  /\ BasicAuth.extract_user_credentials (Some (py "noColon")) = (None, None).
Proof.
  apply (extract_user_credentials_first_colon
           (py "  bob@hbtn.io:pw:d 1 ") (py "bob@hbtn.io") (py "pw:d 1")
           (py "bob")); reflexivity.
Defined.

(** C7, as stated, fails: on ["user:"] the cut at the first colon gives
    [("user", "")], but the code returns [(None, None)]. *)
Lemma extract_user_credentials_empty_secret :
  BasicAuth.splitCredential_spec (py "user:") = (Some (py "user"), Some [])
  /\ BasicAuth.extract_user_credentials (Some (py "user:")) = (None, None).
Proof. split; reflexivity. Qed.

(** C10 (as amended). [extract_user_credentials] strips the decoded text
    before it splits, and requires both parts to be non-empty: its result
    is that of the cut at the first colon of the stripped text when both
    parts are non-empty (and the secret has no line feed), and
    [(None, None)] otherwise. A text that begins with a colon (empty
    identifier), or whose only colon is its last character (empty
    secret), gives [(None, None)]; a pair [v:p] surrounded by white space
    is returned as [(v, p)]. *)
Theorem extract_user_credentials_trims_and_requires_both
    (d rest u ws1 ws2 v p : list N) :
  forallb not_colon u = true ->
  forallb is_space ws1 = true -> forallb is_space ws2 = true ->
  strip (v ++ 58%N :: p) = v ++ 58%N :: p ->
  forallb not_colon v = true -> nonempty v = true ->
  nonempty p = true -> forallb not_newline p = true ->
  BasicAuth.extract_user_credentials (Some d) = credentials_of (strip d)
  /\ BasicAuth.extract_user_credentials (Some (58%N :: rest)) = (None, None)
  /\ BasicAuth.extract_user_credentials (Some (u ++ [58%N])) = (None, None)
  /\ BasicAuth.extract_user_credentials
       (Some (ws1 ++ (v ++ 58%N :: p) ++ ws2)) = (Some v, Some p).
Proof.
  intros Hu H1 H2 Hs Hv Hv' Hp Hp'. repeat split.
  - apply extract_user_credentials_char.
  - rewrite extract_user_credentials_char. unfold strip.
    rewrite lstrip_fixed, rstrip_cons_keep by reflexivity. reflexivity.
  - rewrite extract_user_credentials_char. unfold strip.
    rewrite lstrip_snoc_keep, rstrip_snoc_keep by reflexivity.
    unfold credentials_of.
    rewrite (split_first_colon_app (lstrip u) [] (lstrip_forallb _ _ Hu)).
    cbn [nonempty]. now rewrite andb_false_r.
  - rewrite extract_user_credentials_char.
    rewrite (strip_padded ws1 ws2 _ H1 H2 Hs). unfold credentials_of.
    rewrite (split_first_colon_app v p Hv). now rewrite Hv', Hp, Hp'.
Qed.

Lemma extract_user_credentials_trims_and_requires_both_witness :
  BasicAuth.extract_user_credentials (Some (py " x:y ")) =
    credentials_of (strip (py " x:y "))
  /\ BasicAuth.extract_user_credentials (Some (58%N :: py "secret")) =
       (None, None)
  /\ BasicAuth.extract_user_credentials (Some (py "user" ++ [58%N])) =
       (None, None)
  /\ BasicAuth.extract_user_credentials
       (Some (py "  " ++ (py "bob" ++ 58%N :: py "pwd") ++ py " ")) =
       (Some (py "bob"), Some (py "pwd")).
Proof.
  apply (extract_user_credentials_trims_and_requires_both
           (py " x:y ") (py "secret") (py "user") (py "  ") (py " ")
           (py "bob") (py "pwd")); reflexivity.
Defined.

(** C10, as stated, fails: a text that ends with a colon need not have an
    empty secret. ["a:b:"] is cut at its first colon and gives
    [("a", "b:")], not [(None, None)]. *)
Lemma extract_user_credentials_trailing_colon_accepted :
  BasicAuth.extract_user_credentials (Some (py "a:b:")) =
    (Some (py "a"), Some (py "b:")).
Proof. reflexivity. Qed.

(** C8 (as amended). For every encodable string [s],
    [decode_base64_authorization_header] applied to the Base64 encoding
    of the UTF-8 encoding of [s] returns [s]. For every token [t] that is
    non-empty, has no line feed and does not end in white space,
    [extract_base64_authorization_header("Basic " + t)] returns [t]. For
    every [t'], [extract_base64_authorization_header("Bearer " + t')]
    returns [None]. *)
Theorem basic_token_round_trip (s bs t t' : list N) :
  utf8_encode s = Ret bs ->
  nonempty t = true -> forallb not_newline t = true -> rstrip t = t ->
  BasicAuth.decode_base64_authorization_header (Some (b64encode bs)) =
    Ret (Some s)
  /\ BasicAuth.extract_base64_authorization_header (Some (py "Basic " ++ t)) =
       Some t
  /\ BasicAuth.extract_base64_authorization_header (Some (py "Bearer " ++ t')) =
       None.
Proof.
  intros Hs Ht Hnl Hr. repeat split.
  - destruct (utf8_decode_encode s bs Hs) as [Hd Hb].
    unfold BasicAuth.decode_base64_authorization_header.
    rewrite (b64decode_b64encode bs Hb). cbn [bind]. now rewrite Hd.
  - rewrite extract_base64_authorization_header_char.
    assert (E : strip (py "Basic " ++ t) = py "Basic " ++ t).
    { change (py "Basic " ++ t)
        with (66 :: 97 :: 115 :: 105 :: 99 :: 32 :: t)%N.
      unfold strip. rewrite lstrip_fixed by reflexivity.
      rewrite !rstrip_cons_keep by reflexivity.
      rewrite rstrip_cons_nonempty; rewrite Hr; [reflexivity|].
      now destruct t. }
    rewrite E, strip_prefix_app. now rewrite Ht, Hnl.
  - rewrite extract_base64_authorization_header_char.
    change (py "Bearer " ++ t')
      with (66 :: 101 :: 97 :: 114 :: 101 :: 114 :: 32 :: t')%N.
    unfold strip. rewrite lstrip_fixed by reflexivity.
    rewrite !rstrip_cons_keep by reflexivity. reflexivity.
Qed.

Lemma basic_token_round_trip_witness :
  BasicAuth.decode_base64_authorization_header
    (Some (b64encode [98; 111; 98; 58; 112; 195; 164; 226; 130; 172]%N)) =
    Ret (Some [98; 111; 98; 58; 112; 228; 8364]%N)
  /\ BasicAuth.extract_base64_authorization_header
       (Some (py "Basic " ++ py "Ym9iOnB3ZA==")) = Some (py "Ym9iOnB3ZA==")
  /\ BasicAuth.extract_base64_authorization_header
       (Some (py "Bearer " ++ py "Ym9iOnB3ZA==")) = None.
Proof.
  apply (basic_token_round_trip [98; 111; 98; 58; 112; 228; 8364]%N
           [98; 111; 98; 58; 112; 195; 164; 226; 130; 172]%N
           (py "Ym9iOnB3ZA==") (py "Ym9iOnB3ZA==")); reflexivity.
Defined.

(** C8, as stated, fails: with the empty token the header ["Basic "] is
    stripped to ["Basic"] and nothing is extracted, and a token that ends
    in white space comes back without it. *)
Lemma extract_token_not_verbatim :
  BasicAuth.extract_base64_authorization_header (Some (py "Basic " ++ [])) =
    None
  /\ BasicAuth.extract_base64_authorization_header
       (Some (py "Basic " ++ py "abc ")) = Some (py "abc").
Proof. split; reflexivity. Qed.

(** C5 (as amended). [user_object_from_credentials] returns [None] when
    the user lookup raises or finds nothing; when it finds one or more
    users it takes the first and returns it exactly when the password is
    valid for it. [SessionDBAuth.user_id_for_session_id] returns [None]
    when the durable lookup raises or finds nothing; when it finds one or
    more records it decides on the first alone. *)
Theorem lookup_failure_gives_none_first_match_used
    (User : Type) (valid : User -> list N -> bool)
    (search_raise search_none search_some : list N -> result (list User))
    (email pwd : list N) (x : exn) (u0 : User) (rest : list User)
    (db_raise db_none db_some :
       option (list N) -> result (list SessionDBAuth.UserSession))
    (sid : option (list N)) (y : exn) (s0 : SessionDBAuth.UserSession)
    (srest : list SessionDBAuth.UserSession) (duration now : Z) :
  search_raise email = Raise x ->
  search_none email = Ret [] ->
  search_some email = Ret (u0 :: rest) ->
  db_raise sid = Raise y ->
  db_none sid = Ret [] ->
  db_some sid = Ret (s0 :: srest) ->
  BasicAuth.user_object_from_credentials User search_raise valid
    (Some email) (Some pwd) = Ret None
  /\ BasicAuth.user_object_from_credentials User search_none valid
       (Some email) (Some pwd) = Ret None
  /\ BasicAuth.user_object_from_credentials User search_some valid
       (Some email) (Some pwd) =
     Ret (if valid u0 pwd then Some u0 else None)
  /\ SessionDBAuth.user_id_for_session_id db_raise duration now sid = Ret None
  /\ SessionDBAuth.user_id_for_session_id db_none duration now sid = Ret None
  /\ SessionDBAuth.user_id_for_session_id db_some duration now sid =
     SessionDBAuth.user_id_for_session_id (fun _ => Ret [s0]) duration now sid.
Proof.
  intros H1 H2 H3 H4 H5 H6.
  unfold BasicAuth.user_object_from_credentials,
    SessionDBAuth.user_id_for_session_id.
  rewrite H1, H2, H3, H4, H5, H6. repeat split.
  now destruct (valid u0 pwd).
Qed.

Lemma lookup_failure_gives_none_first_match_used_witness :
  BasicAuth.user_object_from_credentials (nat * list N)
    (fun _ => Raise StorageError) password_is
    (Some (py "bob@hbtn.io")) (Some (py "pwd")) = Ret None
  /\ BasicAuth.user_object_from_credentials (nat * list N)
       (fun _ => Ret []) password_is
       (Some (py "bob@hbtn.io")) (Some (py "pwd")) = Ret None
  /\ BasicAuth.user_object_from_credentials (nat * list N)
       (fun _ => Ret two_users) password_is
       (Some (py "bob@hbtn.io")) (Some (py "pwd")) =
     Ret (if password_is (1%nat, py "pwd") (py "pwd")
          then Some (1%nat, py "pwd") else None)
  /\ SessionDBAuth.user_id_for_session_id (fun _ => Raise StorageError)
       60 (t0 + 1) (Some (py "sid-1")) = Ret None
  /\ SessionDBAuth.user_id_for_session_id (fun _ => Ret [])
       60 (t0 + 1) (Some (py "sid-1")) = Ret None
  /\ SessionDBAuth.user_id_for_session_id
       (fun _ => Ret [durable_session; durable_session])
       60 (t0 + 1) (Some (py "sid-1")) =
     SessionDBAuth.user_id_for_session_id (fun _ => Ret [durable_session])
       60 (t0 + 1) (Some (py "sid-1")).
Proof.
  apply (lookup_failure_gives_none_first_match_used (nat * list N)
           password_is
           (fun _ => Raise StorageError) (fun _ => Ret [])
           (fun _ => Ret two_users)
           (py "bob@hbtn.io") (py "pwd") StorageError
           (1%nat, py "pwd") [(2%nat, py "pwd")]
           (fun _ => Raise StorageError) (fun _ => Ret [])
           (fun _ => Ret [durable_session; durable_session])
           (Some (py "sid-1")) StorageError durable_session [durable_session]
           60%Z (t0 + 1)%Z); reflexivity.
Defined.

(** C5, as stated, fails: when the lookup finds two users the first one
    is returned, and when it finds two session records the user id of the
    first is returned; neither result is [None]. *)
Lemma lookup_many_matches_not_none :
  BasicAuth.user_object_from_credentials (nat * list N)
    (fun _ => Ret two_users) password_is
    (Some (py "bob@hbtn.io")) (Some (py "pwd")) =
    Ret (Some (1%nat, py "pwd"))
  /\ SessionDBAuth.user_id_for_session_id
       (fun _ => Ret [durable_session; durable_session])
       60 (t0 + 1) (Some (py "sid-1")) = Ret (Some (py "42")).
Proof. split; reflexivity. Qed.

(** C6: the code at the failing input. A request whose [Authorization]
    header is [Basic é] makes [base64.b64decode] raise a plain
    [ValueError], which [decode_base64_authorization_header] does not
    catch and [current_user] lets through, whatever the user store. *)
Theorem current_user_raises_on_non_ascii_token (User : Type)
    (User_search : list N -> result (list User))
    (is_valid_password : User -> list N -> bool) :
  BasicAuth.decode_base64_authorization_header (Some [233%N]) =
    Raise ValueError
  /\ BasicAuth.current_user User User_search is_valid_password
       (Some non_ascii_request) = Raise ValueError.
Proof. split; reflexivity. Qed.

(** C3: the code at the failing input. With a duration of 0 and the same
    stored data, one second after creation [SessionExpAuth] still returns
    the user id while [SessionDBAuth] returns [None]. *)
Theorem session_db_differs_from_exp_at_zero_duration :
  SessionExpAuth.user_id_for_session_id (exp_auth 0) (t0 + 1000000)
    (Some (py "sid-1")) = Ret (Some (py "42"))
  /\ SessionDBAuth.user_id_for_session_id durable_search 0 (t0 + 1000000)
       (Some (py "sid-1")) = Ret None.
Proof. split; reflexivity. Qed.

(** C4: the code at the failing input. In [SessionDBAuth] a session with
    duration 0 is refused one microsecond after its creation, and one with
    a negative duration is refused at the instant of its creation. *)
Theorem session_db_nonpositive_duration_expires :
  SessionDBAuth.user_id_for_session_id durable_search 0 (t0 + 1)
    (Some (py "sid-1")) = Ret None
  /\ SessionDBAuth.user_id_for_session_id durable_search (-1) t0
       (Some (py "sid-1")) = Ret None.
Proof. split; reflexivity. Qed.

End Claims.

(** * Further properties of the code *)

(** ** [Auth.require_auth]: entries made of literal characters *)

Section RequireAuthPrefix.

Lemma literal_atoms_literal (p : list N) :
  forallb is_literal p = true ->
  literal_atoms p = List.map (fun c => Atom (CChar c) QOne) p.
Proof.
  induction p as [|c p IH]; [reflexivity|].
  intros H. cbn [forallb] in H. apply andb_prop in H as [Hc Hp].
  cbn [literal_atoms List.map]. fold (literal_atoms p). rewrite (IH Hp).
  unfold is_literal in Hc. apply andb_prop in Hc as [_ Hc].
  unfold atom_of_char. now destruct (c =? 46)%N.
Qed.

Lemma is_literal_plain (p : list N) :
  forallb is_literal p = true -> forallb is_plain p = true.
Proof.
  induction p as [|c p IH]; [reflexivity|].
  cbn [forallb]. intros H. apply andb_prop in H as [Hc Hp].
  rewrite (IH Hp). unfold is_literal in Hc.
  apply andb_prop in Hc as [-> _]. reflexivity.
Qed.

(** A literal prefix followed by [.*] or [/*] matches exactly the paths
    that start with the prefix. *)
Lemma re_match_literal_prefix (p : list N) (a : N) (path : list N) :
  forallb is_literal p = true ->
  is_unmodelled_special a = false -> a <> 42%N ->
  re_match (p ++ [a; 42%N]) path = Some (Ret (starts_with p path)).
Proof.
  intros Hp Ha Ha'.
  pose proof (is_literal_plain p Hp) as Hpl.
  unfold re_match, re_compile.
  rewrite (plain_not_special p [a; 42%N] Hpl)
    by (cbn [existsb]; now rewrite Ha).
  rewrite (compile_atoms_plain p [a; 42%N] Hpl) by exact Ha'.
  cbn [compile_atoms bind].
  rewrite (proj2 (N.eqb_neq a 42) Ha'). cbn [N.eqb Pos.eqb bind].
  unfold re_match_compiled. rewrite (literal_atoms_literal p Hp).
  rewrite run_literals. unfold starts_with.
  destruct (strip_prefix p path) as [t|]; [|reflexivity].
  cbn [run].
  destruct (greedy (atom_of_char a) (fun _ _ => Some []) t (0 + length p))
    eqn:G; [reflexivity|].
  exfalso. revert G. apply greedy_always. discriminate.
Qed.

Lemma last_char_nonempty (s : list N) :
  nonempty s = true -> exists c, last_char s = Ret c.
Proof.
  induction s as [|d s IH]; [discriminate|]. intros _.
  destruct s as [|d' s]; [now exists d|].
  destruct (IH eq_refl) as [c Hc]. exists c. exact Hc.
Qed.

Lemma entry_matches_literal (x path : list N) :
  literal_entry x = true ->
  Auth.entry_matches x path = Some (Ret (starts_with (entry_prefix x) path)).
Proof.
  unfold literal_entry, entry_prefix, Auth.entry_matches,
    Auth.exclusion_pattern, ends_with.
  intros H. apply andb_prop in H as [Hne Hl].
  destruct (last_char_nonempty _ Hne) as [c Hc].
  rewrite Hc in Hl. rewrite Hc. cbn [bind].
  destruct (N.eqb_spec c 42) as [E42|H42]; cbn [orb] in *.
  - apply (re_match_literal_prefix _ 46%N path Hl); [reflexivity|discriminate].
  - destruct (N.eqb_spec c 47) as [E47|H47].
    + apply (re_match_literal_prefix _ 47%N path Hl);
        [reflexivity|discriminate].
    + apply (re_match_literal_prefix _ 47%N path Hl);
        [reflexivity|discriminate].
Qed.

Lemma require_auth_loop_literal (path : list N) (l : list (list N)) :
  forallb literal_entry l = true ->
  Auth.require_auth_loop path l =
  Some (Ret (negb (existsb (fun x => starts_with (entry_prefix x) path) l))).
Proof.
  induction l as [|x l IH]; [reflexivity|].
  cbn [forallb existsb Auth.require_auth_loop]. intros H.
  apply andb_prop in H as [Hx Hl].
  rewrite (entry_matches_literal x path Hx).
  destruct (starts_with (entry_prefix x) path); [reflexivity|].
  exact (IH Hl).
Qed.

(** X1. When every exclusion entry is non-empty once stripped and, apart
    from a final [*] or [/], made of literal characters, [require_auth]
    returns [False] exactly when the path starts with the stripped text of
    some entry taken without its final [*] or [/]. *)
Theorem require_auth_prefix_semantics (path : list N) (l : list (list N)) :
  forallb literal_entry l = true ->
  Auth.require_auth (Some path) (Some l) =
  Some (Ret (negb (existsb (fun x => starts_with (entry_prefix x) path) l))).
Proof. apply require_auth_loop_literal. Qed.

Lemma require_auth_prefix_semantics_witness :
  Auth.require_auth (Some (py "/api/v1/stats/users"))
    (Some [py " /api/v1/status/ "; py "/api/v1/stat*"; py "/docs"]) =
  Some (Ret (negb (existsb
    (fun x => starts_with (entry_prefix x) (py "/api/v1/stats/users"))
    [py " /api/v1/status/ "; py "/api/v1/stat*"; py "/docs"]))).
Proof.
  apply (require_auth_prefix_semantics (py "/api/v1/stats/users")
           [py " /api/v1/status/ "; py "/api/v1/stat*"; py "/docs"]).
  reflexivity.
Defined.

End RequireAuthPrefix.

(** ** [app.py]: the [before_request] hook *)

Section AppFacts.

Lemma require_auth_excluded_paths (path : list N) :
  Auth.require_auth (Some path) (Some App.excluded_paths) =
  Some (Ret (negb (is_open path))).
Proof.
  rewrite require_auth_prefix_semantics by reflexivity. reflexivity.
Qed.

Section Hook.
Variable User : Type.
Variable current_user : option Auth.Request -> result (option User).
Variable SESSION_NAME : option (list N).

(** X2. A path that starts with [/api/v1/status], [/api/v1/unauthorized],
    [/api/v1/forbidden] or [/api/v1/auth_session/login] passes the hook
    without any credential being read: [current_user] is not called and no
    user is attached, whatever the request carries. *)
Theorem authenticate_user_open_paths (path : list N) (request : Auth.Request) :
  is_open path = true ->
  App.authenticate_user (Some current_user) SESSION_NAME path request =
  Some (Ret (App.Proceed None)).
Proof.
  intros H. unfold App.authenticate_user.
  rewrite require_auth_excluded_paths, H. reflexivity.
Qed.


End Hook.

(** X4. With the base class [Auth] (the default when [AUTH_TYPE] is not
    set) no request outside the open paths is served: the hook aborts
    with 401 when the request has neither an [Authorization] header nor a
    session cookie, and with 403 otherwise. *)
Theorem authenticate_user_base_auth_rejects (User : Type)
    (SESSION_NAME : option (list N)) (path : list N)
    (request : Auth.Request) :
  is_open path = false ->
  App.select_auth None = Some App.AuthInstance
  /\ App.authenticate_user (User := User) (Some Auth.current_user)
       SESSION_NAME path request =
     Some (Ret (App.Abort
       (match Auth.authorization_header (Some request),
              Auth.session_cookie SESSION_NAME (Some request) with
        | None, None => 401
        | _, _ => 403
        end))).
Proof.
  intros H. split; [reflexivity|]. unfold App.authenticate_user.
  rewrite require_auth_excluded_paths, H. cbn [negb Auth.current_user bind].
  destruct (Auth.authorization_header (Some request));
    destruct (Auth.session_cookie SESSION_NAME (Some request)); reflexivity.
Qed.

(** X5. A value of [AUTH_TYPE] other than the five class names selects no
    authentication object, and the hook then lets every request through
    with no user, protected paths included. *)
Theorem unknown_auth_type_disables_authentication (User : Type)
    (methods : App.auth_instance ->
               option Auth.Request -> result (option User))
    (AUTH_TYPE : list N) (SESSION_NAME : option (list N)) (path : list N)
    (request : Auth.Request) :
  existsb (fun n => bool_decide (AUTH_TYPE = n)) auth_type_names = false ->
  App.select_auth (Some AUTH_TYPE) = None
  /\ App.authenticate_user
       (option_map methods (App.select_auth (Some AUTH_TYPE)))
       SESSION_NAME path request = Some (Ret (App.Proceed None)).
Proof.
  intros H. unfold auth_type_names in H. cbn [existsb] in H.
  assert (E : App.select_auth (Some AUTH_TYPE) = None).
  { unfold App.select_auth.
    repeat match type of H with
    | (bool_decide ?P || _)%bool = false =>
        apply orb_false_elim in H as [-> H]
    end. reflexivity. }
  split; [exact E|]. now rewrite E.
Qed.

End AppFacts.

Lemma authenticate_user_open_paths_witness :
  App.authenticate_user
    (Some (BasicAuth.current_user (nat * list N) bob_search password_is))
    (Some (py "_my_session_id")) (py "/api/v1/status/") no_credentials =
  Some (Ret (App.Proceed None)).
Proof.
  apply (authenticate_user_open_paths (nat * list N)
           (BasicAuth.current_user (nat * list N) bob_search password_is)
           (Some (py "_my_session_id")) (py "/api/v1/status/")
           no_credentials).
  reflexivity.
Defined.


Lemma authenticate_user_base_auth_rejects_witness :
  App.select_auth None = Some App.AuthInstance
  /\ App.authenticate_user (User := nat * list N) (Some Auth.current_user)
       None (py "/api/v1/users") bob_request =
     Some (Ret (App.Abort
       (match Auth.authorization_header (Some bob_request),
              Auth.session_cookie None (Some bob_request) with
        | None, None => 401
        | _, _ => 403
        end))).
Proof.
  apply (authenticate_user_base_auth_rejects (nat * list N) None
           (py "/api/v1/users") bob_request).
  reflexivity.
Defined.

Lemma unknown_auth_type_disables_authentication_witness :
  App.select_auth (Some (py "basic")) = None
  /\ App.authenticate_user
       (option_map
          (fun _ => BasicAuth.current_user (nat * list N) bob_search
                      password_is)
          (App.select_auth (Some (py "basic"))))
       None (py "/api/v1/users") no_credentials =
     Some (Ret (App.Proceed None)).
Proof.
  apply (unknown_auth_type_disables_authentication (nat * list N)
           (fun _ => BasicAuth.current_user (nat * list N) bob_search
                       password_is)
           (py "basic") None (py "/api/v1/users") no_credentials).
  reflexivity.
Defined.

(** ** [BasicAuth]: what the steps return, and when they raise *)

Section BasicAuthMore.
Import BasicAuth.
Local Open Scope N_scope.

Ltac Zify.zify_post_hook ::= Z.to_euclidean_division_equations.

(** Decide by arithmetic the comparisons the goal branches on. *)
Ltac decide_tests :=
  repeat match goal with
  | |- context [N.ltb ?a ?b] =>
      first [ rewrite (proj2 (N.ltb_lt a b)) by lia
            | rewrite (proj2 (N.ltb_ge a b)) by lia ]
  | |- context [N.leb ?a ?b] =>
      first [ rewrite (proj2 (N.leb_le a b)) by lia
            | rewrite (proj2 (N.leb_gt a b)) by lia ]
  | |- context [N.eqb ?a ?b] =>
      first [ rewrite (proj2 (N.eqb_eq a b)) by lia
            | rewrite (proj2 (N.eqb_neq a b)) by lia ]
  end.

(** X6. When [extract_base64_authorization_header] returns a token, the
    stripped header is ["Basic "] followed by that token, and the token is
    not empty and has no line feed. *)
Theorem extract_base64_authorization_header_sound (h t : list N) :
  extract_base64_authorization_header (Some h) = Some t ->
  strip h = py "Basic " ++ t
  /\ nonempty t = true /\ forallb not_newline t = true.
Proof.
  rewrite extract_base64_authorization_header_char.
  destruct (strip_prefix (py "Basic ") (strip h)) as [t'|] eqn:E;
    [|discriminate].
  destruct (nonempty t' && forallb not_newline t')%bool eqn:C;
    [|discriminate].
  intros T; inversion T; subst t'. apply andb_prop in C as [C1 C2].
  split; [exact (strip_prefix_Some _ _ _ E)|now split].
Qed.

Lemma extract_base64_authorization_header_sound_witness :
  strip (py "  Basic Ym9iOnB3ZA==  ") = py "Basic " ++ py "Ym9iOnB3ZA=="
  /\ nonempty (py "Ym9iOnB3ZA==") = true
  /\ forallb not_newline (py "Ym9iOnB3ZA==") = true.
Proof.
  apply (extract_base64_authorization_header_sound
           (py "  Basic Ym9iOnB3ZA==  ") (py "Ym9iOnB3ZA==")).
  reflexivity.
Defined.

(** X7. When [extract_user_credentials] returns a pair, the stripped text
    is the identifier, a colon and the secret; the identifier is not empty
    and holds no colon; the secret is not empty and holds no line feed. *)
Theorem extract_user_credentials_sound (d u p : list N) :
  extract_user_credentials (Some d) = (Some u, Some p) ->
  strip d = u ++ 58 :: p
  /\ forallb not_colon u = true /\ nonempty u = true
  /\ nonempty p = true /\ forallb not_newline p = true.
Proof.
  rewrite extract_user_credentials_char. unfold credentials_of.
  destruct (split_first_colon (strip d)) as [[u' p']|] eqn:E; [|discriminate].
  destruct (nonempty u' && nonempty p' && forallb not_newline p')%bool eqn:C;
    [|discriminate].
  intros T; inversion T; subst u' p'.
  apply andb_prop in C as [C C3]. apply andb_prop in C as [C1 C2].
  destruct (split_first_colon_Some _ _ _ E) as [E1 E2].
  repeat split; assumption.
Qed.

Lemma extract_user_credentials_sound_witness :
  strip (py " bob:p:w ") = py "bob" ++ 58 :: py "p:w"
  /\ forallb not_colon (py "bob") = true /\ nonempty (py "bob") = true
  /\ nonempty (py "p:w") = true /\ forallb not_newline (py "p:w") = true.
Proof.
  apply (extract_user_credentials_sound (py " bob:p:w ") (py "bob")
           (py "p:w")).
  reflexivity.
Defined.

Lemma a2b_loop_raises (s : list N) (quad_pos : nat) (leftchar : N)
    (pads : nat) (started : bool) (out : list N) (e : exn) :
  a2b_loop s quad_pos leftchar pads started out = Raise e ->
  e = BinasciiError.
Proof.
  revert quad_pos leftchar pads started out.
  induction s as [|ch s IH]; intros quad_pos leftchar pads started out.
  - cbn. destruct quad_pos; intros E; now inversion E.
  - cbn [a2b_loop]. destruct (ch =? 61).
    + destruct ((2 <=? quad_pos)%nat && (4 <=? quad_pos + S pads)%nat)%bool.
      * destruct s; intros E; now inversion E.
      * apply IH.
    + destruct (table_a2b_base64 ch) as [v|]; [|intros E; now inversion E].
      destruct started; [intros E; now inversion E|].
      destruct quad_pos as [|[|[|q]]]; apply IH.
Qed.

Lemma cons_ret_inv (c : N) (r : result (list N)) (x : result (list N)) :
  cons_ret c r = x ->
  match x with
  | Ret s => exists s', r = Ret s' /\ s = c :: s'
  | Raise e => r = Raise e
  end.
Proof.
  intros <-. destruct r as [s'|e]; cbn; [now exists s'|reflexivity].
Qed.

Lemma utf8_decode_raises_bounded (n : nat) (bs : list N) (e : exn) :
  (length bs <= n)%nat -> utf8_decode bs = Raise e -> e = UnicodeDecodeError.
Proof.
  revert bs. induction n as [|n IH]; intros bs Hn.
  { destruct bs; [discriminate|cbn in Hn; lia]. }
  destruct bs as [|b0 rest]; [discriminate|].
  cbn [length] in Hn. cbn [utf8_decode].
  assert (R : forall c r, (length r <= n)%nat ->
            cons_ret c (utf8_decode r) = Raise e -> e = UnicodeDecodeError).
  { intros c r Hr E. apply cons_ret_inv in E. exact (IH r Hr E). }
  repeat match goal with
  | |- (if ?b then _ else _) = _ -> _ => destruct b
  | |- match ?l with [] => _ | _ :: _ => _ end = _ -> _ =>
      destruct l; cbn [length] in Hn
  | |- Raise _ = Raise _ -> _ => intros E; now inversion E
  | |- cons_ret _ _ = _ -> _ => apply R; lia
  | |- (let _ := _ in _) = _ -> _ => cbv zeta
  end.
Qed.

Lemma utf8_decode_raises (bs : list N) (e : exn) :
  utf8_decode bs = Raise e -> e = UnicodeDecodeError.
Proof. apply (utf8_decode_raises_bounded (length bs)). lia. Qed.

(** X8. [decode_base64_authorization_header] raises exactly when the token
    holds a character above 127, and the exception is then a
    [ValueError]; for every other token it returns (the text or [None]). *)
Theorem decode_base64_authorization_header_raises_iff (t : list N) :
  (forall e, decode_base64_authorization_header (Some t) = Raise e ->
             e = ValueError)
  /\ (decode_base64_authorization_header (Some t) = Raise ValueError <->
      existsb (fun c => 128 <=? c) t = true).
Proof.
  unfold decode_base64_authorization_header, b64decode_validate.
  destruct (existsb (fun c => 128 <=? c) t) eqn:A.
  - cbn. split; [intros e E; now inversion E|now split].
  - assert (B : forall e,
      (match t with
       | 61 :: _ => Raise BinasciiError
       | _ => a2b_loop t 0 0 0 false []
       end) = Raise e -> e = BinasciiError).
    { intros e. destruct t as [|ch s]; [discriminate|].
      destruct (N.eq_dec ch 61) as [->|Hn]; [intros E; now inversion E|].
      intros E. apply (a2b_loop_raises (ch :: s) 0 0 0 false [] e).
      destruct ch as [|q]; [exact E|].
      repeat (destruct q as [q|q|]; try exact E). contradiction. }
    destruct (match t with
              | 61 :: _ => Raise BinasciiError
              | _ => a2b_loop t 0 0 0 false []
              end) as [bs|e0] eqn:D.
    + cbn [bind]. destruct (utf8_decode bs) as [s|e1] eqn:U; cbn.
      * split; [discriminate|split; discriminate].
      * rewrite (utf8_decode_raises bs e1 U). cbn.
        split; [discriminate|split; discriminate].
    + rewrite (B e0 eq_refl). cbn.
      split; [discriminate|split; discriminate].
Qed.

Lemma utf8_encode_cons (c : N) (cb s' bs' : list N) :
  utf8_encode_cp c = Ret cb -> utf8_encode s' = Ret bs' ->
  utf8_encode (c :: s') = Ret (cb ++ bs').
Proof. intros E1 E2. cbn [utf8_encode]. now rewrite E1, E2. Qed.

Lemma utf8_encode_decode_bounded (n : nat) (bs s : list N) :
  (length bs <= n)%nat -> utf8_decode bs = Ret s -> utf8_encode s = Ret bs.
Proof.
  revert bs s. induction n as [|n IH]; intros bs s Hn.
  { destruct bs; [|cbn in Hn; lia]. intros E; inversion E. reflexivity. }
  destruct bs as [|b0 rest]; [intros E; inversion E; reflexivity|].
  cbn [length] in Hn. cbn [utf8_decode].
  destruct (N.ltb_spec b0 0x80) as [H1|H1].
  { intros E. apply cons_ret_inv in E as (s' & E & ->).
    apply (utf8_encode_cons b0 [b0] s' rest); [|apply IH; [lia|exact E]].
    unfold utf8_encode_cp. now decide_tests. }
  destruct (N.ltb_spec b0 0xc2) as [H2|H2]; [discriminate|].
  destruct (N.ltb_spec b0 0xe0) as [H3|H3].
  { destruct rest as [|b1 rest1]; [discriminate|]. cbn [length] in Hn.
    unfold is_cont.
    destruct (N.leb_spec 0x80 b1); [|discriminate].
    destruct (N.ltb_spec b1 0xc0); [|discriminate]. cbn [andb].
    intros E. apply cons_ret_inv in E as (s' & E & ->).
    apply (utf8_encode_cons _ [b0; b1] s' rest1); [|apply IH; [lia|exact E]].
    unfold utf8_encode_cp. decide_tests. do 2 f_equal; [lia|f_equal; lia]. }
  destruct (N.ltb_spec b0 0xf0) as [H4|H4].
  { destruct rest as [|b1 [|b2 rest2]]; try discriminate. cbn [length] in Hn.
    cbv zeta. unfold is_cont.
    destruct (N.leb_spec 0x80 b1); [|discriminate].
    destruct (N.ltb_spec b1 0xc0); [|discriminate].
    destruct (N.leb_spec 0x80 b2); [|discriminate].
    destruct (N.ltb_spec b2 0xc0); [|discriminate]. cbn [andb].
    set (c := (b0 - 0xe0) * 4096 + (b1 - 0x80) * 64 + (b2 - 0x80)).
    destruct (N.leb_spec 0x800 c) as [Hc|Hc]; [|discriminate]. cbn [andb].
    destruct ((0xd800 <=? c) && (c <=? 0xdfff))%bool eqn:Hs; [discriminate|].
    cbn [negb]. intros E. apply cons_ret_inv in E as (s' & E & ->).
    apply (utf8_encode_cons _ [b0; b1; b2] s' rest2);
      [|apply IH; [lia|exact E]].
    unfold utf8_encode_cp. rewrite Hs.
    assert (Hc' : c < 0x10000) by (unfold c; lia).
    decide_tests.
    assert (E0 : 0xe0 + c / 4096 = b0) by (unfold c; lia).
    assert (E1 : 0x80 + (c / 64) mod 64 = b1) by (unfold c; lia).
    assert (E2 : 0x80 + c mod 64 = b2) by (unfold c; lia).
    now rewrite E0, E1, E2. }
  destruct (N.ltb_spec b0 0xf5) as [H5|H5]; [|discriminate].
  destruct rest as [|b1 [|b2 [|b3 rest3]]]; try discriminate.
  cbn [length] in Hn. cbv zeta. unfold is_cont.
  destruct (N.leb_spec 0x80 b1); [|discriminate].
  destruct (N.ltb_spec b1 0xc0); [|discriminate].
  destruct (N.leb_spec 0x80 b2); [|discriminate].
  destruct (N.ltb_spec b2 0xc0); [|discriminate].
  destruct (N.leb_spec 0x80 b3); [|discriminate].
  destruct (N.ltb_spec b3 0xc0); [|discriminate]. cbn [andb].
  set (c := (b0 - 0xf0) * 262144 + (b1 - 0x80) * 4096
            + (b2 - 0x80) * 64 + (b3 - 0x80)).
  destruct (N.leb_spec 0x10000 c) as [Hc|Hc]; [|discriminate].
  destruct (N.ltb_spec c 0x110000) as [Hc'|Hc']; [|discriminate].
  cbn [andb]. intros E. apply cons_ret_inv in E as (s' & E & ->).
  apply (utf8_encode_cons _ [b0; b1; b2; b3] s' rest3);
    [|apply IH; [lia|exact E]].
  unfold utf8_encode_cp. decide_tests.
  assert (E0 : 0xf0 + c / 262144 = b0) by (unfold c; lia).
  assert (E1 : 0x80 + (c / 4096) mod 64 = b1) by (unfold c; lia).
  assert (E2 : 0x80 + (c / 64) mod 64 = b2) by (unfold c; lia).
  assert (E3 : 0x80 + c mod 64 = b3) by (unfold c; lia).
  now rewrite E0, E1, E2, E3.
Qed.

Lemma utf8_encode_decode (bs s : list N) :
  utf8_decode bs = Ret s -> utf8_encode s = Ret bs.
Proof. apply (utf8_encode_decode_bounded (length bs)). lia. Qed.

Lemma a2b_loop_alphabet (s : list N) (quad_pos : nat) (leftchar : N)
    (pads : nat) (started : bool) (out bs : list N) :
  a2b_loop s quad_pos leftchar pads started out = Ret bs ->
  forallb is_b64_char s = true.
Proof.
  revert quad_pos leftchar pads started out.
  induction s as [|ch s IH]; intros quad_pos leftchar pads started out;
    [reflexivity|].
  cbn [a2b_loop forallb].
  destruct (N.eqb_spec ch 61) as [->|Hch].
  - change (is_b64_char 61) with true. cbn [andb].
    destruct ((2 <=? quad_pos)%nat && (4 <=? quad_pos + S pads)%nat)%bool.
    + destruct s; [intros _; reflexivity|intros E; discriminate E].
    + apply IH.
  - unfold is_b64_char.
    destruct (table_a2b_base64 ch) as [v|]; [|intros E; discriminate E].
    destruct started; [intros E; discriminate E|]. cbn [andb].
    destruct quad_pos as [|[|[|q]]]; apply IH.
Qed.

Lemma b64decode_validate_alphabet (t bs : list N) :
  b64decode_validate t = Ret bs -> forallb is_b64_char t = true.
Proof.
  unfold b64decode_validate.
  destruct (existsb (fun c => 128 <=? c) t); [discriminate|].
  destruct t as [|ch s]; [reflexivity|].
  destruct (N.eq_dec ch 61) as [->|Hn]; [discriminate|].
  intros E. apply (a2b_loop_alphabet (ch :: s) 0 0 0 false [] bs).
  destruct ch as [|q]; [exact E|].
  repeat (destruct q as [q|q|]; try exact E). contradiction.
Qed.

(** X9. Whatever text [decode_base64_authorization_header] returns, every
    character of the token is a character of the Base64 alphabet or [=],
    and the octets decoded from the token are exactly the UTF-8 encoding
    of the text: no text comes from a token with a foreign character, nor
    from malformed UTF-8 (an overlong form, a surrogate). *)
Theorem decode_base64_authorization_header_sound (t s : list N) :
  decode_base64_authorization_header (Some t) = Ret (Some s) ->
  forallb is_b64_char t = true
  /\ exists bs, b64decode_validate t = Ret bs /\ utf8_encode s = Ret bs.
Proof.
  unfold decode_base64_authorization_header, try_except.
  destruct (b64decode_validate t) as [bs|e] eqn:B; cbn [bind].
  - destruct (utf8_decode bs) as [s'|e] eqn:U; cbn [bind].
    + intros E; inversion E; subst s'.
      split; [exact (b64decode_validate_alphabet t bs B)|].
      exists bs. split; [reflexivity|].
      exact (utf8_encode_decode bs s U).
    + destruct (existsb (issubclass e) [BinasciiError; UnicodeDecodeError]);
        discriminate.
  - destruct (existsb (issubclass e) [BinasciiError; UnicodeDecodeError]);
      discriminate.
Qed.

Lemma decode_base64_authorization_header_sound_witness :
  forallb is_b64_char (py "Ym9iOnDDpA==") = true
  /\ exists bs, b64decode_validate (py "Ym9iOnDDpA==") = Ret bs
                /\ utf8_encode (py "bob:p" ++ [228]) = Ret bs.
Proof.
  apply (decode_base64_authorization_header_sound (py "Ym9iOnDDpA==")
           (py "bob:p" ++ [228])).
  reflexivity.
Defined.

Lemma b64char_range (n : N) : 43 <= b64char n <= 122.
Proof.
  unfold b64char.
  repeat match goal with
  | |- context [N.ltb ?a ?b] => destruct (N.ltb_spec a b)
  | |- context [N.eqb ?a ?b] => destruct (N.eqb_spec a b)
  end; lia.
Qed.

Lemma visible_not_space (c : N) : 33 <= c <= 122 -> is_space c = false.
Proof. intros H. unfold is_space. now decide_tests. Qed.

Lemma b64encode_no_space (bs : list N) :
  forallb (fun c => negb (is_space c)) (b64encode bs) = true.
Proof.
  assert (H : forall n, negb (is_space (b64char n)) = true).
  { intros n. rewrite visible_not_space; [reflexivity|].
    pose proof (b64char_range n). lia. }
  induction bs as [|a|a b|a b c bs IH] using list_ind3;
    cbn [b64encode forallb]; rewrite ?H, ?IH; reflexivity.
Qed.

Lemma rstrip_no_space (t : list N) :
  forallb (fun c => negb (is_space c)) t = true -> rstrip t = t.
Proof.
  induction t as [|c t IH]; [reflexivity|].
  cbn [forallb]. intros H. apply andb_prop in H as [Hc Ht].
  rewrite rstrip_cons_keep by (now destruct (is_space c)).
  now rewrite (IH Ht).
Qed.

Lemma no_space_no_newline (t : list N) :
  forallb (fun c => negb (is_space c)) t = true ->
  forallb not_newline t = true.
Proof.
  induction t as [|c t IH]; [reflexivity|].
  cbn [forallb]. intros H. apply andb_prop in H as [Hc Ht].
  rewrite (IH Ht), andb_true_r. unfold not_newline.
  destruct (N.eqb_spec c 10) as [->|]; [discriminate|reflexivity].
Qed.

Lemma strip_basic_header (t : list N) :
  nonempty t = true -> rstrip t = t ->
  strip (py "Basic " ++ t) = py "Basic " ++ t.
Proof.
  intros Ht Hr.
  change (py "Basic " ++ t) with (66 :: 97 :: 115 :: 105 :: 99 :: 32 :: t).
  unfold strip. rewrite lstrip_fixed by reflexivity.
  rewrite !rstrip_cons_keep by reflexivity.
  rewrite rstrip_cons_nonempty; rewrite Hr; [reflexivity|].
  now destruct t.
Qed.

Lemma b64encode_nonempty (bs : list N) :
  nonempty bs = true -> nonempty (b64encode bs) = true.
Proof. destruct bs as [|a [|b [|c r]]]; [discriminate|reflexivity..]. Qed.

Section Store.
Variable User : Type.
Variable User_search : list N -> result (list User).
Variable is_valid_password : User -> list N -> bool.

(** X10. A request whose [Authorization] header is ["Basic "] followed by
    the Base64 encoding of the UTF-8 encoding of [email:pwd] is resolved
    by [current_user] to the first user found for [email], provided the
    password is valid for that user (and to [None] otherwise). Here
    [email] is not empty and holds no colon, [pwd] is not empty and holds
    no line feed, and [email:pwd] has no white space at either end. *)
Theorem current_user_accepts_valid_header (request : Auth.Request)
    (email pwd bs : list N) (u0 : User) (rest : list User) :
  Auth.headers request (py "Authorization") =
    Some (py "Basic " ++ b64encode bs) ->
  utf8_encode (email ++ 58 :: pwd) = Ret bs ->
  strip (email ++ 58 :: pwd) = email ++ 58 :: pwd ->
  forallb not_colon email = true -> nonempty email = true ->
  nonempty pwd = true -> forallb not_newline pwd = true ->
  User_search email = Ret (u0 :: rest) ->
  current_user User User_search is_valid_password (Some request) =
  Ret (if is_valid_password u0 pwd then Some u0 else None).
Proof.
  intros Hh He Hs Hc Hne Hp Hnl Hu.
  destruct (utf8_decode_encode _ _ He) as [Hd Hb].
  assert (Hbs : nonempty bs = true).
  { destruct bs; [|reflexivity]. cbn in Hd. inversion Hd.
    now destruct email. }
  pose proof (b64encode_no_space bs) as Hns.
  unfold current_user, Auth.authorization_header. rewrite Hh.
  rewrite extract_base64_authorization_header_char.
  rewrite strip_basic_header
    by (auto using b64encode_nonempty, rstrip_no_space).
  rewrite strip_prefix_app.
  rewrite (b64encode_nonempty bs Hbs), (no_space_no_newline _ Hns).
  cbn [andb]. unfold decode_base64_authorization_header.
  rewrite (b64decode_b64encode bs Hb). cbn [bind]. rewrite Hd.
  cbn [bind try_except].
  rewrite extract_user_credentials_char, Hs. unfold credentials_of.
  rewrite (split_first_colon_app email pwd Hc), Hne, Hp, Hnl. cbn [andb].
  unfold user_object_from_credentials. rewrite Hu.
  now destruct (is_valid_password u0 pwd).
Qed.

(** X11. [current_user] returns a user only if the request has an
    [Authorization] header from which the three steps extract a pair
    [(email, pwd)], that user is the first one found for [email], and the
    password is valid for it. *)
Theorem current_user_sound (request : option Auth.Request) (u : User) :
  current_user User User_search is_valid_password request = Ret (Some u) ->
  exists r h token text email pwd rest,
    request = Some r
    /\ Auth.headers r (py "Authorization") = Some h
    /\ extract_base64_authorization_header (Some h) = Some token
    /\ decode_base64_authorization_header (Some token) = Ret (Some text)
    /\ extract_user_credentials (Some text) = (Some email, Some pwd)
    /\ User_search email = Ret (u :: rest)
    /\ is_valid_password u pwd = true.
Proof.
  unfold current_user.
  destruct request as [r|]; [|discriminate]. cbn [Auth.authorization_header].
  destruct (Auth.headers r (py "Authorization")) as [h|] eqn:Hh;
    [|discriminate].
  destruct (extract_base64_authorization_header (Some h)) as [token|] eqn:Ht;
    [|discriminate].
  destruct (decode_base64_authorization_header (Some token))
    as [[text|]|e] eqn:Hd; [|discriminate..]. cbn [bind].
  destruct (extract_user_credentials (Some text)) as [[email|] [pwd|]] eqn:Hc;
    try discriminate.
  unfold user_object_from_credentials.
  destruct (User_search email) as [[|u0 rest]|e] eqn:Hu; try discriminate.
  destruct (is_valid_password u0 pwd) eqn:Hv; [|discriminate].
  intros E; inversion E; subst u0.
  exists r, h, token, text, email, pwd, rest. repeat split; assumption.
Qed.

End Store.

Lemma current_user_accepts_valid_header_witness :
  current_user (nat * list N) bob_search password_is (Some bob_request) =
  Ret (if password_is (1%nat, py "pwd") (py "pwd")
       then Some (1%nat, py "pwd") else None).
Proof.
  apply (current_user_accepts_valid_header (nat * list N) bob_search
           password_is bob_request (py "bob") (py "pwd") (py "bob:pwd")
           (1%nat, py "pwd") [(2%nat, py "pwd")]); reflexivity.
Defined.

Lemma current_user_sound_witness :
  exists r h token text email pwd rest,
    Some bob_request = Some r
    /\ Auth.headers r (py "Authorization") = Some h
    /\ extract_base64_authorization_header (Some h) = Some token
    /\ decode_base64_authorization_header (Some token) = Ret (Some text)
    /\ extract_user_credentials (Some text) = (Some email, Some pwd)
    /\ bob_search email = Ret ((1%nat, py "pwd") :: rest)
    /\ password_is (1%nat, py "pwd") pwd = true.
Proof.
  apply (current_user_sound (nat * list N) bob_search password_is
           (Some bob_request) (1%nat, py "pwd")).
  reflexivity.
Defined.

End BasicAuthMore.

(** ** Sessions: creation, lookup and the range of dates *)

Section SessionMore.
Local Open Scope Z_scope.

(** X12. A session made by [SessionExpAuth.create_session] at [t0] is
    found again under the id that was returned: at every time when the
    duration is zero or less, and until [t0 + duration] included when the
    duration is positive (and that instant is a representable date);
    after it the lookup gives [None]. *)
Theorem session_exp_create_then_lookup (self : SessionExpAuth.t)
    (t0 now : Z) (fresh uid : list N) :
  (SessionExpAuth.session_duration self <=? 0)
  || expiry_in_range t0 (SessionExpAuth.session_duration self) = true ->
  snd (SessionExpAuth.create_session self t0 fresh (Some uid)) = Some fresh
  /\ SessionExpAuth.user_id_for_session_id
       (fst (SessionExpAuth.create_session self t0 fresh (Some uid)))
       now (Some fresh) =
     Ret (if (0 <? SessionExpAuth.session_duration self)
             && (t0 + SessionExpAuth.session_duration self * 1000000 <? now)
          then None else Some uid).
Proof.
  intros H. split; [reflexivity|].
  pose proof (exp_create_session_stored self t0 fresh uid) as S.
  destruct (SessionExpAuth.create_session self t0 fresh (Some uid))
    as [self' sid]. destruct S as (_ & Sd & Ss). cbn [fst].
  destruct (Z.leb_spec (SessionExpAuth.session_duration self) 0) as [Hd|Hd].
  - rewrite (proj2 (Z.ltb_ge _ _) Hd). cbn [andb].
    apply (exp_never_expires self' now fresh
             {| SessionExpAuth.user_id := uid;
                SessionExpAuth.created_at := Some t0 |});
      [now rewrite Sd|exact Ss].
  - cbn [orb] in H. rewrite (proj2 (Z.ltb_lt _ _) Hd). cbn [andb].
    rewrite <- Sd. apply exp_positive_duration; rewrite ?Sd; assumption.
Qed.

Lemma session_exp_create_then_lookup_witness :
  snd (SessionExpAuth.create_session (exp_auth 60) t0 (py "sid-2")
         (Some (py "7"))) = Some (py "sid-2")
  /\ SessionExpAuth.user_id_for_session_id
       (fst (SessionExpAuth.create_session (exp_auth 60) t0 (py "sid-2")
               (Some (py "7"))))
       (t0 + 61000000) (Some (py "sid-2")) =
     Ret (if (0 <? SessionExpAuth.session_duration (exp_auth 60))
             && (t0 + SessionExpAuth.session_duration (exp_auth 60) * 1000000
                 <? t0 + 61000000)
          then None else Some (py "7")).
Proof.
  apply (session_exp_create_then_lookup (exp_auth 60) t0 (t0 + 61000000)
           (py "sid-2") (py "7")).
  reflexivity.
Defined.

(** X13. [SessionExpAuth.create_session] touches nothing but the entry of
    the id it returns: the lookup of any other session id gives what it
    gave before, and the duration is kept. Without a user id it returns
    [None] and leaves the object as it was. *)
Theorem session_exp_create_session_frame (self : SessionExpAuth.t)
    (t0 now : Z) (fresh uid other : list N) :
  other <> fresh ->
  SessionExpAuth.user_id_for_session_id
    (fst (SessionExpAuth.create_session self t0 fresh (Some uid)))
    now (Some other) =
  SessionExpAuth.user_id_for_session_id self now (Some other)
  /\ SessionExpAuth.create_session self t0 fresh None = (self, None).
Proof.
  intros H. split; [|reflexivity].
  unfold SessionExpAuth.user_id_for_session_id. cbn.
  now rewrite lookup_insert_ne by congruence.
Qed.

Lemma session_exp_create_session_frame_witness :
  SessionExpAuth.user_id_for_session_id
    (fst (SessionExpAuth.create_session (exp_auth 60) (t0 + 5) (py "sid-2")
            (Some (py "7"))))
    (t0 + 9) (Some (py "sid-1")) =
  SessionExpAuth.user_id_for_session_id (exp_auth 60) (t0 + 9)
    (Some (py "sid-1"))
  /\ SessionExpAuth.create_session (exp_auth 60) (t0 + 5) (py "sid-2") None =
     (exp_auth 60, None).
Proof.
  apply (session_exp_create_session_frame (exp_auth 60) (t0 + 5) (t0 + 9)
           (py "sid-2") (py "7") (py "sid-1")).
  discriminate.
Defined.

Lemma expiry_overflow (created duration : Z) :
  expiry_in_range created duration = false ->
  bind (timedelta_seconds duration) (datetime_add created) =
  Raise OverflowError.
Proof.
  unfold expiry_in_range, timedelta_seconds, datetime_add. intros H.
  destruct ((-999999999 <=? duration / 86400)
            && (duration / 86400 <=? 999999999))%bool; [|reflexivity].
  cbn [andb bind] in *.
  now destruct ((0 <=? created + duration * 1000000)
                && (created + duration * 1000000 <=? datetime_max))%bool.
Qed.

(** X14. The lookups do not guard the date arithmetic. When the duration
    is too large for [timedelta], or [created_at + duration] is not a
    representable date, [SessionExpAuth.user_id_for_session_id] (for a
    positive duration and a stored session) and
    [SessionDBAuth.user_id_for_session_id] (for a found record) raise
    [OverflowError]. *)
Theorem session_lookup_overflow (self : SessionExpAuth.t) (now : Z)
    (sid uid : list N) (created : Z)
    (search : option (list N) -> result (list SessionDBAuth.UserSession))
    (s0 : SessionDBAuth.UserSession) (rest : list SessionDBAuth.UserSession)
    (db_duration : Z) :
  0 < SessionExpAuth.session_duration self ->
  SessionExpAuth.user_id_by_session_id self !! sid =
    Some {| SessionExpAuth.user_id := uid;
            SessionExpAuth.created_at := Some created |} ->
  expiry_in_range created (SessionExpAuth.session_duration self) = false ->
  search (Some sid) = Ret (s0 :: rest) ->
  expiry_in_range (SessionDBAuth.created_at s0) db_duration = false ->
  SessionExpAuth.user_id_for_session_id self now (Some sid) =
    Raise OverflowError
  /\ SessionDBAuth.user_id_for_session_id search db_duration now (Some sid) =
       Raise OverflowError.
Proof.
  intros Hd Hs Hr Hq Hr'. split.
  - unfold SessionExpAuth.user_id_for_session_id.
    rewrite Hs, (proj2 (Z.leb_gt _ _) Hd). cbn [SessionExpAuth.created_at].
    pose proof (expiry_overflow _ _ Hr) as E.
    destruct (timedelta_seconds (SessionExpAuth.session_duration self))
      as [span|e]; cbn [bind] in *; [now rewrite E|now inversion E].
  - unfold SessionDBAuth.user_id_for_session_id. rewrite Hq.
    pose proof (expiry_overflow _ _ Hr') as E.
    destruct (timedelta_seconds db_duration) as [span|e]; cbn [bind] in *;
      [now rewrite E|now inversion E].
Qed.

Lemma session_lookup_overflow_witness :
  SessionExpAuth.user_id_for_session_id (exp_auth 86400000000000) t0
    (Some (py "sid-1")) = Raise OverflowError
  /\ SessionDBAuth.user_id_for_session_id durable_search 252000000000 t0
       (Some (py "sid-1")) = Raise OverflowError.
Proof.
  apply (session_lookup_overflow (exp_auth 86400000000000) t0 (py "sid-1")
           (py "42") t0 durable_search durable_session [] 252000000000);
    reflexivity.
Defined.

(** X15. For a positive duration, [SessionDBAuth.user_id_for_session_id]
    on a record found by the search returns what
    [SessionExpAuth.user_id_for_session_id] returns on a dictionary entry
    with the same user id and creation time. *)
Theorem session_db_matches_exp_for_positive_duration
    (search : option (list N) -> result (list SessionDBAuth.UserSession))
    (self : SessionExpAuth.t) (now : Z) (sid : list N)
    (s0 : SessionDBAuth.UserSession) (rest : list SessionDBAuth.UserSession) :
  0 < SessionExpAuth.session_duration self ->
  search (Some sid) = Ret (s0 :: rest) ->
  SessionExpAuth.user_id_by_session_id self !! sid =
    Some {| SessionExpAuth.user_id := SessionDBAuth.user_id s0;
            SessionExpAuth.created_at := Some (SessionDBAuth.created_at s0) |} ->
  SessionDBAuth.user_id_for_session_id search
    (SessionExpAuth.session_duration self) now (Some sid) =
  SessionExpAuth.user_id_for_session_id self now (Some sid).
Proof. apply db_agrees_when_positive. Qed.

Lemma session_db_matches_exp_for_positive_duration_witness :
  SessionDBAuth.user_id_for_session_id durable_search
    (SessionExpAuth.session_duration (exp_auth 60)) (t0 + 61000000)
    (Some (py "sid-1")) =
  SessionExpAuth.user_id_for_session_id (exp_auth 60) (t0 + 61000000)
    (Some (py "sid-1")).
Proof.
  apply (session_db_matches_exp_for_positive_duration durable_search
           (exp_auth 60) (t0 + 61000000) (py "sid-1") durable_session []);
    reflexivity.
Defined.

End SessionMore.

(** ** [filter_datum]: redaction of [key=value] messages *)

Section FilterFacts.
Import FilteredLogger.

Lemma free_of_cons (c d : N) (s : list N) :
  free_of c (d :: s) = true -> (d =? c)%N = false /\ free_of c s = true.
Proof.
  unfold free_of. cbn [forallb]. intros H. apply andb_prop in H as [Hd Hs].
  split; [now destruct (d =? c)%N|exact Hs].
Qed.

Lemma drop_prefix_key (f k t : list N) :
  free_of 61 f = true -> free_of 61 k = true ->
  drop_prefix (f ++ [61%N]) (k ++ 61%N :: t) =
  if bool_decide (f = k) then Some t else None.
Proof.
  revert k. induction f as [|c f IH]; intros k Hf Hk.
  - destruct k as [|d k]; [reflexivity|].
    apply free_of_cons in Hk as [Hd _].
    cbn [app drop_prefix]. rewrite Hd.
    rewrite bool_decide_eq_false_2 by discriminate. reflexivity.
  - apply free_of_cons in Hf as [Hc Hf].
    destruct k as [|d k].
    + cbn [app drop_prefix]. rewrite N.eqb_sym, Hc.
      rewrite bool_decide_eq_false_2 by discriminate. reflexivity.
    + apply free_of_cons in Hk as [_ Hk].
      cbn [app drop_prefix]. destruct (N.eqb_spec d c) as [->|Hdc].
      * rewrite (IH k Hf Hk).
        destruct (decide (f = k)) as [->|Hne].
        -- now rewrite !bool_decide_eq_true_2.
        -- rewrite !bool_decide_eq_false_2; [reflexivity|congruence|exact Hne].
      * rewrite bool_decide_eq_false_2 by congruence. reflexivity.
Qed.

Lemma match_field_key (alts : list (list N)) (k t : list N) :
  forallb (free_of 61) alts = true -> free_of 61 k = true ->
  match_field alts (k ++ 61%N :: t) =
  if is_alternative alts k then Some (k, t) else None.
Proof.
  intros Ha Hk. induction alts as [|f alts IH]; [reflexivity|].
  cbn [forallb] in Ha. apply andb_prop in Ha as [Hf Ha].
  cbn [match_field is_alternative existsb].
  rewrite (drop_prefix_key f k t Hf Hk).
  destruct (bool_decide_reflect (f = k)) as [->|Hne]; [reflexivity|].
  exact (IH Ha).
Qed.

Lemma drop_prefix_in_value (sc : N) (f v rest : list N) :
  sc <> 61%N -> clean_field sc f = true -> free_of 61 v = true ->
  drop_prefix (f ++ [61%N]) (v ++ sc :: rest) = None.
Proof.
  intros Hsc Hf. unfold clean_field in Hf. apply andb_prop in Hf as [Hf1 Hf2].
  revert v. induction f as [|c f IH]; intros v Hv.
  - destruct v as [|d v]; cbn [app drop_prefix].
    + now rewrite (proj2 (N.eqb_neq sc 61) Hsc).
    + apply free_of_cons in Hv as [Hd _]. now rewrite Hd.
  - apply free_of_cons in Hf1 as [_ Hf1].
    apply free_of_cons in Hf2 as [Hc Hf2].
    destruct v as [|d v]; cbn [app drop_prefix].
    + now rewrite N.eqb_sym, Hc.
    + apply free_of_cons in Hv as [_ Hv].
      destruct (d =? c)%N; [|reflexivity]. exact (IH Hf1 Hf2 v Hv).
Qed.

Lemma match_field_in_value (sc : N) (alts : list (list N))
    (v rest : list N) :
  sc <> 61%N -> forallb (clean_field sc) alts = true ->
  free_of 61 v = true ->
  match_field alts (v ++ sc :: rest) = None.
Proof.
  intros Hsc Ha Hv. induction alts as [|f alts IH]; [reflexivity|].
  cbn [forallb] in Ha. apply andb_prop in Ha as [Hf Ha].
  cbn [match_field]. rewrite (drop_prefix_in_value sc f v rest Hsc Hf Hv).
  exact (IH Ha).
Qed.

Lemma match_field_at_separator (sc : N) (alts : list (list N))
    (rest : list N) :
  sc <> 61%N -> forallb (clean_field sc) alts = true ->
  match_field alts (sc :: rest) = None.
Proof.
  intros Hsc Ha. exact (match_field_in_value sc alts [] rest Hsc Ha eq_refl).
Qed.

Lemma sub_loop_skip (alts : list (list N)) (sep red a b : list N) :
  sub_loop alts sep red (a ++ b) (length a) = sub_loop alts sep red b 0.
Proof.
  induction a as [|c a IH]; [reflexivity|]. exact IH.
Qed.

Lemma value_length_value (sc : N) (v rest : list N) :
  free_of sc v = true -> value_length [sc] (v ++ sc :: rest) = length v.
Proof.
  induction v as [|d v IH]; intros Hv.
  - cbn [app value_length existsb length]. now rewrite N.eqb_refl.
  - apply free_of_cons in Hv as [Hd Hv].
    cbn [app value_length existsb length]. rewrite orb_false_r, Hd.
    now rewrite (IH Hv).
Qed.

Lemma free_of_tail (c d : N) (s : list N) :
  free_of c (d :: s) = true -> free_of c s = true.
Proof. intros H. now apply free_of_cons in H as [_ H]. Qed.

(** Scanning a value and its separator copies them. *)
Lemma sub_loop_value (sc : N) (alts : list (list N)) (red v rest : list N) :
  sc <> 61%N -> forallb (clean_field sc) alts = true ->
  free_of 61 v = true ->
  sub_loop alts [sc] red (v ++ sc :: rest) 0 =
  v ++ sc :: sub_loop alts [sc] red rest 0.
Proof.
  intros Hsc Ha. induction v as [|d v IH]; intros Hv.
  - cbn [app sub_loop].
    now rewrite (match_field_at_separator sc alts rest Hsc Ha).
  - change ((d :: v) ++ sc :: rest) with (d :: (v ++ sc :: rest)).
    cbn [sub_loop].
    change (d :: (v ++ sc :: rest)) with ((d :: v) ++ sc :: rest).
    rewrite (match_field_in_value sc alts (d :: v) rest Hsc Ha Hv).
    cbn [app]. f_equal. exact (IH (free_of_tail 61 d v Hv)).
Qed.

Lemma clean_fields_no_equals (sc : N) (alts : list (list N)) :
  forallb (clean_field sc) alts = true -> forallb (free_of 61) alts = true.
Proof.
  induction alts as [|f alts IH]; [reflexivity|]. cbn [forallb].
  intros H. apply andb_prop in H as [Hf Ha]. rewrite (IH Ha).
  unfold clean_field in Hf. now apply andb_prop in Hf as [-> _].
Qed.

(** Scanning one [key=value] pair: the value is replaced when some end
    of the key is an alternative. *)
Lemma sub_loop_pair (sc : N) (alts : list (list N))
    (red k v rest : list N) :
  sc <> 61%N -> forallb (clean_field sc) alts = true ->
  free_of 61 k = true -> free_of 61 v = true -> free_of sc v = true ->
  sub_loop alts [sc] red (k ++ 61%N :: v ++ sc :: rest) 0 =
  k ++ 61%N :: (if has_suffix_in alts k then red else v)
    ++ sc :: sub_loop alts [sc] red rest 0.
Proof.
  intros Hsc Ha Hk Hv Hv'.
  pose proof (clean_fields_no_equals sc alts Ha) as Ha'.
  assert (Hit : forall k', free_of 61 k' = true ->
            is_alternative alts k' = true ->
            forall c s', c :: s' = k' ++ 61%N :: v ++ sc :: rest ->
            sub_loop alts [sc] red (c :: s') 0 =
            k' ++ 61%N :: red ++ sc :: sub_loop alts [sc] red rest 0).
  { intros k' Hk' Hin c s' E. cbn [sub_loop]. rewrite E.
    rewrite (match_field_key alts k' _ Ha' Hk'), Hin.
    rewrite (value_length_value sc v rest Hv').
    assert (Es : s' = (tl (k' ++ [61%N]) ++ v) ++ sc :: rest).
    { destruct k'; cbn in E; inversion E; cbn;
        now rewrite <- ?app_assoc. }
    assert (El : (length k' + length v)%nat =
                 length (tl (k' ++ [61%N]) ++ v)).
    { rewrite length_app. destruct k'; cbn; [reflexivity|].
      rewrite length_app. cbn. lia. }
    rewrite Es, El, sub_loop_skip. cbn [sub_loop].
    rewrite (match_field_at_separator sc alts rest Hsc Ha).
    reflexivity. }
  induction k as [|c k IH].
  - cbn [app has_suffix_in].
    destruct (is_alternative alts []) eqn:Hin.
    + exact (Hit [] eq_refl Hin _ _ eq_refl).
    + pose proof (match_field_key alts [] (v ++ sc :: rest) Ha' eq_refl)
        as M. cbn [app] in M. rewrite Hin in M.
      cbn [sub_loop]. rewrite M.
      f_equal. exact (sub_loop_value sc alts red v rest Hsc Ha Hv).
  - cbn [has_suffix_in].
    destruct (is_alternative alts (c :: k)) eqn:Hin.
    + exact (Hit (c :: k) Hk Hin _ _ eq_refl).
    + change ((c :: k) ++ 61%N :: v ++ sc :: rest)
        with (c :: (k ++ 61%N :: v ++ sc :: rest)).
      cbn [sub_loop].
      change (c :: (k ++ 61%N :: v ++ sc :: rest))
        with ((c :: k) ++ 61%N :: v ++ sc :: rest).
      rewrite (match_field_key alts (c :: k) _ Ha' Hk), Hin.
      cbn [app]. f_equal. exact (IH (free_of_tail 61 c k Hk)).
Qed.

Lemma sub_loop_render (sc : N) (fields : list (list N)) (red : list N)
    (pairs : list (list N * list N)) :
  sc <> 61%N -> forallb (clean_field sc) fields = true ->
  forallb (clean_pair sc) pairs = true ->
  sub_loop (alternatives fields) [sc] red (render sc pairs) 0 =
  render sc (redact_pairs fields red pairs).
Proof.
  intros Hsc Hf Hp.
  assert (Ha : forallb (clean_field sc) (alternatives fields) = true).
  { destruct fields; [reflexivity|exact Hf]. }
  induction pairs as [|[k v] pairs IH]; [reflexivity|].
  cbn [forallb] in Hp. apply andb_prop in Hp as [Hkv Hp].
  unfold clean_pair in Hkv. cbn [fst snd] in Hkv.
  apply andb_prop in Hkv as [Hkv Hv']. apply andb_prop in Hkv as [Hk Hv].
  cbn [render redact_pairs List.map fst snd app].
  rewrite (sub_loop_pair sc _ red k v (render sc pairs) Hsc Ha Hk Hv Hv').
  fold (redact_pairs fields red pairs). rewrite (IH Hp).
  reflexivity.
Qed.



Lemma has_suffix_in_app (alts : list (list N)) (p k : list N) :
  has_suffix_in alts k = true -> has_suffix_in alts (p ++ k) = true.
Proof.
  intros H. induction p as [|c p IH]; [exact H|].
  cbn [app has_suffix_in]. rewrite IH.
  now destruct (is_alternative alts (c :: p ++ k)).
Qed.

Lemma row_message_render (prefix v1 v2 v3 v4 v5 v6 v7 v8 : list N) :
  prefix ++ row_message [v1; v2; v3; v4; v5; v6; v7; v8] =
  render 59 [(prefix ++ py "name", v1); (py " email", v2);
             (py " phone", v3); (py " ssn", v4); (py " password", v5);
             (py " ip", v6); (py " last_login", v7);
             (py " user_agent", v8)].
Proof.
  unfold row_message, columns.
  cbn [combine List.map join render fst snd].
  repeat rewrite <- app_assoc. reflexivity.
Qed.

(** X17. [RedactingFormatter.format] with [PII_FIELDS] on a formatted
    record that ends with the message [main] builds for a row: the values
    of [name], [email], [phone], [ssn] and [password] are replaced by
    [***], those of [ip], [last_login] and [user_agent] are kept, and the
    text before the message is kept. (The text before holds no [=]; the
    values hold neither [=] nor [;].) *)
Theorem format_redacts_pii_of_row (prefix v1 v2 v3 v4 v5 v6 v7 v8 : list N) :
  free_of 61 prefix = true ->
  forallb (fun v => free_of 61 v && free_of 59 v)
    [v1; v2; v3; v4; v5; v6; v7; v8] = true ->
  format PII_FIELDS
    (prefix ++ row_message [v1; v2; v3; v4; v5; v6; v7; v8]) =
  Some (Ret (prefix ++ row_message [py "***"; py "***"; py "***"; py "***";
                                    py "***"; v6; v7; v8])).
Proof.
  intros Hp Hv. rewrite !row_message_render.
  cbn [forallb] in Hv.
  repeat match type of Hv with
  | (_ && _)%bool = true => apply andb_prop in Hv as [? Hv]
  end.
  repeat match goal with
  | H : (_ && _)%bool = true |- _ => apply andb_prop in H as [? ?]
  end.
  assert (Hk : free_of 61 (prefix ++ py "name") = true).
  { unfold free_of. rewrite forallb_app. fold (free_of 61 prefix).
    now rewrite Hp. }
  unfold format, filter_datum.
  change (existsb (existsb is_re_special) PII_FIELDS) with false.
  cbn [orb existsb].
  rewrite (sub_loop_render 59 PII_FIELDS (py "***")); try reflexivity;
    [|discriminate|].
  - unfold redact_pairs. cbn [List.map fst snd].
    rewrite (has_suffix_in_app (alternatives PII_FIELDS) prefix (py "name")
               eq_refl).
    reflexivity.
  - cbn [forallb]. unfold clean_pair. cbn [fst snd].
    repeat match goal with
    | H : free_of _ _ = true |- _ => rewrite H
    end. reflexivity.
Qed.

Lemma format_redacts_pii_of_row_witness :
  format PII_FIELDS
    (py "[HOLBERTON] user_data INFO 2019-11-19 18:24:25,105: "
     ++ row_message [py "Bob"; py "bob@dylan.com"; py "555"; py "000-12";
                     py "bobby2019"; py "1.2.3.4"; py "2019-11-14";
                     py "Mozilla/5.0"]) =
  Some (Ret (py "[HOLBERTON] user_data INFO 2019-11-19 18:24:25,105: "
             ++ row_message [py "***"; py "***"; py "***"; py "***";
                             py "***"; py "1.2.3.4"; py "2019-11-14";
                             py "Mozilla/5.0"])).
Proof.
  apply (format_redacts_pii_of_row
           (py "[HOLBERTON] user_data INFO 2019-11-19 18:24:25,105: ")
           (py "Bob") (py "bob@dylan.com") (py "555") (py "000-12")
           (py "bobby2019") (py "1.2.3.4") (py "2019-11-14")
           (py "Mozilla/5.0")); reflexivity.
Defined.

Lemma drop_prefix_needs_equals (f s r : list N) :
  drop_prefix (f ++ [61%N]) s = Some r -> free_of 61 s = false.
Proof.
  revert s. induction f as [|c f IH]; intros s.
  - destruct s as [|d s]; [discriminate|]. cbn [app drop_prefix].
    destruct (N.eqb_spec d 61) as [->|]; [reflexivity|discriminate].
  - destruct s as [|d s]; [discriminate|]. cbn [app drop_prefix].
    destruct (d =? c)%N; [|discriminate]. intros H.
    unfold free_of. cbn [forallb]. fold (free_of 61 s).
    rewrite (IH s H). apply andb_false_r.
Qed.

Lemma match_field_needs_equals (alts : list (list N)) (s : list N) :
  free_of 61 s = true -> match_field alts s = None.
Proof.
  intros Hs. induction alts as [|f alts IH]; [reflexivity|].
  cbn [match_field].
  destruct (drop_prefix (f ++ [61%N]) s) as [r|] eqn:E; [|exact IH].
  rewrite (drop_prefix_needs_equals f s r E) in Hs. discriminate.
Qed.

(** X18. For fields made of ordinary characters, a non-empty separator
    without a character special in a set and a redaction without a
    backslash, [filter_datum] returns unchanged every message that holds
    no [=]. *)
Theorem filter_datum_without_equals (fields : list (list N))
    (redaction message separator : list N) :
  existsb (existsb is_re_special) fields = false ->
  existsb is_set_special separator = false ->
  existsb (N.eqb 92) redaction = false ->
  nonempty separator = true ->
  free_of 61 message = true ->
  filter_datum fields redaction message separator = Some (Ret message).
Proof.
  intros H1 H2 H3 Hs Hm. unfold filter_datum. rewrite H1, H2, H3.
  cbn [orb]. destruct separator as [|sc sep]; [discriminate|].
  do 2 f_equal. induction message as [|c m IH]; [reflexivity|].
  cbn [sub_loop]. rewrite (match_field_needs_equals _ _ Hm).
  f_equal. exact (IH (free_of_tail 61 c m Hm)).
Qed.

Lemma filter_datum_without_equals_witness :
  filter_datum [py "name"; py "email"] (py "***")
    (py "user logged in; nothing to hide") (py ";") =
  Some (Ret (py "user logged in; nothing to hide")).
Proof.
  apply (filter_datum_without_equals [py "name"; py "email"] (py "***")
           (py "user logged in; nothing to hide") (py ";")); reflexivity.
Defined.




End FilterFacts.

(** ** [SessionExpAuth.__init__]: the configured duration *)

Section InitFacts.

Lemma digits_value_bad (s : list N) (acc : Z) (b : bool) :
  existsb not_int_char s = true -> digits_value s acc b = None.
Proof.
  revert acc b. induction s as [|c s IH]; intros acc b; [discriminate|].
  cbn [existsb digits_value]. unfold not_int_char at 1.
  destruct (is_digit c); cbn [orb negb].
  - apply IH.
  - destruct (is_ascii_space c); cbn [orb negb];
      destruct (c =? 43)%N; cbn [orb negb];
      destruct (c =? 45)%N; cbn [orb negb];
      destruct (c =? 95)%N; cbn [orb negb andb];
      try (destruct b; first [apply IH|reflexivity]); reflexivity.
Qed.

Lemma not_int_char_not_space (c : N) :
  not_int_char c = true -> is_ascii_space c = false.
Proof.
  unfold not_int_char. destruct (is_digit c), (is_ascii_space c);
    cbn; congruence.
Qed.

Lemma lstrip_ascii_keeps (s : list N) :
  existsb not_int_char s = true ->
  existsb not_int_char (lstrip_ascii s) = true.
Proof.
  induction s as [|c s IH]; [discriminate|]. intros H.
  cbn [lstrip_ascii]. destruct (is_ascii_space c) eqn:E; [|exact H].
  cbn [existsb] in H. apply IH.
  destruct (not_int_char c) eqn:Hc; [|exact H].
  rewrite (not_int_char_not_space c Hc) in E. discriminate.
Qed.

Lemma rstrip_ascii_keeps (s : list N) :
  existsb not_int_char s = true ->
  existsb not_int_char (rstrip_ascii s) = true.
Proof.
  induction s as [|c s IH]; [discriminate|]. intros H.
  cbn [existsb] in H. cbn [rstrip_ascii].
  destruct (not_int_char c) eqn:Hc.
  - destruct (rstrip_ascii s); cbn [existsb];
      [rewrite (not_int_char_not_space c Hc); cbn [existsb]|];
      now rewrite Hc.
  - cbn [orb] in H. specialize (IH H).
    destruct (rstrip_ascii s) as [|d r]; [discriminate|].
    cbn [existsb] in *. now rewrite IH, orb_true_r.
Qed.

Lemma digits_value_digits (ds : list N) (acc : Z) (b : bool) :
  forallb is_digit ds = true ->
  digits_value ds acc b =
  if nonempty ds || b
  then Some (fold_left (fun a c => (a * 10 + Z.of_N (c - 48))%Z) ds acc)
  else None.
Proof.
  revert acc b. induction ds as [|c ds IH]; intros acc b H.
  - now destruct b.
  - cbn [forallb] in H. apply andb_prop in H as [Hc H].
    cbn [digits_value nonempty orb fold_left]. rewrite Hc, (IH _ _ H).
    now rewrite orb_true_r.
Qed.

Lemma digit_facts (c : N) :
  is_digit c = true ->
  is_ascii_space c = false /\ (128 <=? c)%N = false
  /\ c <> 43%N /\ c <> 45%N.
Proof.
  unfold is_digit, is_ascii_space. intros H.
  apply andb_prop in H as [H1 H2].
  apply N.leb_le in H1. apply N.leb_le in H2.
  split; [|split; [apply N.leb_gt; lia|split; lia]].
  rewrite (proj2 (N.leb_gt c 13)) by lia.
  rewrite (proj2 (N.eqb_neq c 32)) by lia.
  now rewrite andb_false_r.
Qed.

Lemma rstrip_ascii_digits (ds : list N) :
  forallb is_digit ds = true -> rstrip_ascii ds = ds.
Proof.
  induction ds as [|c ds IH]; [reflexivity|]. cbn [forallb]. intros H.
  apply andb_prop in H as [Hc H]. cbn [rstrip_ascii]. rewrite (IH H).
  destruct (digit_facts c Hc) as [-> _]. now destruct ds.
Qed.

Lemma digits_ascii (ds : list N) :
  forallb is_digit ds = true -> existsb (fun c => (128 <=? c)%N) ds = false.
Proof.
  induction ds as [|c ds IH]; [reflexivity|]. cbn [forallb existsb].
  intros H. apply andb_prop in H as [Hc H].
  destruct (digit_facts c Hc) as (_ & -> & _). exact (IH H).
Qed.

Lemma lstrip_ascii_digits (ds : list N) :
  forallb is_digit ds = true -> lstrip_ascii ds = ds.
Proof.
  destruct ds as [|c ds]; [reflexivity|]. cbn [forallb]. intros H.
  apply andb_prop in H as [Hc _]. cbn [lstrip_ascii].
  now destruct (digit_facts c Hc) as [-> _].
Qed.

Lemma sign_and_body_keeps (t : list N) :
  existsb not_int_char t = true ->
  existsb not_int_char (snd (sign_and_body t)) = true.
Proof.
  destruct t as [|c r]; [discriminate|]. intros H.
  destruct (N.eq_dec c 43%N) as [->|H43]; [exact H|].
  destruct (N.eq_dec c 45%N) as [->|H45]; [exact H|].
  replace (sign_and_body (c :: r)) with (1%Z, c :: r); [exact H|].
  unfold sign_and_body. destruct c as [|p]; [reflexivity|].
  repeat (destruct p as [p|p|]; try reflexivity); contradiction.
Qed.

Lemma sign_and_body_digits (ds : list N) :
  nonempty ds = true -> forallb is_digit ds = true ->
  sign_and_body ds = (1%Z, ds).
Proof.
  destruct ds as [|c r]; [discriminate|]. intros _ H.
  cbn [forallb] in H. apply andb_prop in H as [Hc _].
  destruct (digit_facts c Hc) as (_ & _ & H43 & H45).
  unfold sign_and_body. destruct c as [|p]; [reflexivity|].
  repeat (destruct p as [p|p|]; try reflexivity); contradiction.
Qed.

(** X20. [SessionExpAuth.__init__] never fails on its configuration: the
    duration is 0 when [SESSION_DURATION] is not set and when its text
    holds a character that no integer literal has (the [ValueError] of
    [int] is caught), and it is the number denoted when the text is a
    string of decimal digits. (Texts of ASCII characters, at most 4300 of
    them.) *)
Theorem session_duration_from_environment (s ds : list N) :
  (length s <=? 4300)%nat = true ->
  existsb (fun c => (128 <=? c)%N) s = false ->
  existsb not_int_char s = true ->
  (length ds <=? 4300)%nat = true ->
  nonempty ds = true -> forallb is_digit ds = true ->
  SessionExpAuth.init_session_duration None = Some 0%Z
  /\ SessionExpAuth.init_session_duration (Some s) = Some 0%Z
  /\ SessionExpAuth.init_session_duration (Some ds) = Some (decimal ds).
Proof.
  intros Hl Ha Hb Hl' Hne Hd. split; [reflexivity|]. split.
  - unfold SessionExpAuth.init_session_duration, int_of_str.
    apply Nat.leb_le in Hl. rewrite (proj2 (Nat.ltb_ge _ _) Hl), Ha.
    cbn [orb].
    pose proof (rstrip_ascii_keeps _ (lstrip_ascii_keeps _ Hb)) as Ht.
    destruct (sign_and_body (rstrip_ascii (lstrip_ascii s)))
      as [sign body] eqn:Es.
    pose proof (sign_and_body_keeps _ Ht) as Hbody.
    rewrite Es in Hbody. cbn [snd] in Hbody.
    unfold sign_and_body in Es. rewrite Es.
    now rewrite (digits_value_bad body 0 false Hbody).
  - unfold SessionExpAuth.init_session_duration, int_of_str.
    apply Nat.leb_le in Hl'. rewrite (proj2 (Nat.ltb_ge _ _) Hl').
    rewrite (digits_ascii ds Hd). cbn [orb].
    rewrite (lstrip_ascii_digits ds Hd), (rstrip_ascii_digits ds Hd).
    pose proof (sign_and_body_digits ds Hne Hd) as Es.
    unfold sign_and_body in Es. rewrite Es.
    rewrite (digits_value_digits ds 0 false Hd), Hne. cbn [orb].
    unfold decimal. now rewrite Z.mul_1_l.
Qed.

Lemma session_duration_from_environment_witness :
  SessionExpAuth.init_session_duration None = Some 0%Z
  /\ SessionExpAuth.init_session_duration (Some (py " 60s ")) = Some 0%Z
  /\ SessionExpAuth.init_session_duration (Some (py "0060")) =
       Some (decimal (py "0060")).
Proof.
  apply (session_duration_from_environment (py " 60s ") (py "0060"));
    reflexivity.
Defined.

End InitFacts.
